(** * goweb: the middleware pipeline of [server.go]

    A shallow embedding of the request-serving layer of phil-inc/goweb:
    the route table ([Router], [routes]), the wrapper chain built by
    [handler] (timeout, panic recovery, request metrics, gzip), and the
    error reporter ([ErrorHandler.HandleError]).

    Handlers are programs over the operations a Go handler can perform on
    its [http.ResponseWriter] and on the process (log output, clock,
    stack dump).  A wrapper is a function from handlers to handlers, as
    in the source; a wrapper that substitutes the response writer
    (gzip, timeout) re-interprets the writer operations of the program
    it wraps.  [run] executes a program against a recording response
    writer. *)

From Stdlib Require Import Ascii.
From stdpp Require Import base option list strings gmap fin_maps pretty.

Open Scope string_scope.

(** ** Go values that appear in the source *)

(** A Go [error] built by [errors.New] or [fmt.Errorf]: its message. *)
Record error : Type := mkError { Error : string }.

Definition errors_New (text : string) : error := mkError text.

(** Values a handler may hand to [panic] that are neither a string nor
    an [error]. *)
Inductive GoValue : Type :=
| VInt (n : Z)
| VBool (b : bool)
| VBytes (b : string).

(** The dynamic type of a recovered panic value, as the type switch of
    [RecoverHandler] distinguishes it.  From Go 1.21 on [panic(nil)]
    reaches [recover] as a [*runtime.PanicNilError], which is an
    [error]; a nil panic value is therefore not a separate case. *)
Inductive PanicValue : Type :=
| PanicString (x : string)
| PanicError (x : error)
| PanicOther (x : GoValue).

(** [http.Header]: canonical header name to the list of its values. *)
Definition Header_Get (h : gmap string (list string)) (key : string) : string :=
  match h !! key with
  | Some (v :: _) => v
  | _ => ""
  end.

(** [*http.Request], the fields the source reads. *)
Record Request : Type := mkRequest {
  Method : string;
  RequestURI : string;
  URL_Path : string;
  RemoteAddr : string;
  Header : gmap string (list string)
}.

(** [strings.Contains]. *)
Fixpoint strings_Contains (s substr : string) : bool :=
  String.prefix substr s ||
  match s with
  | EmptyString => false
  | String _ s' => strings_Contains s' substr
  end.

(** [strings.HasPrefix] and [strings.HasSuffix] on the last byte. *)
Definition strings_HasPrefix (s pre : string) : bool := String.prefix pre s.

Fixpoint ends_with_slash (s : string) : bool :=
  match s with
  | EmptyString => false
  | String c EmptyString => bool_decide (c = "/"%char)
  | String _ s' => ends_with_slash s'
  end.

(** ** Handler programs *)

(** The result of [Write]: bytes accepted and the error, if any. *)
Definition WriteResult : Type := nat * option error.

(** Updates of the header map [w.Header()]: [Set], [Add], [Del] and the
    direct assignment [w.Header()[key] = values]. *)
Inductive HeaderOp : Type :=
| HSet (key value : string)
| HAdd (key value : string)
| HDel (key : string)
| HAssign (key : string) (values : list string).

(** What a handler does, operation by operation.  [HeaderDo],
    [WriteHeader] and [Write] are calls on the [http.ResponseWriter] the
    handler received; the others act on the process: [log] output,
    standard error, [time.Now], [debug.Stack].  [Elapse d] is [d]
    nanoseconds of the handler's own running time.  A program is
    finite: the handler returns or panics.  It updates the header map
    of its writer and does not read it back. *)
Inductive Prog : Type :=
| Return
| Panic (v : PanicValue)
| HeaderDo (op : HeaderOp) (next : Prog)
| WriteHeader (code : Z) (next : Prog)
| Write (b : string) (next : WriteResult → Prog)
| LogPrint (line : string) (next : Prog)
| StderrWrite (b : string) (next : Prog)
| TimeNow (next : N → Prog)
| DebugStack (next : string → Prog)
| Elapse (d : N) (next : Prog).

Definition HeaderSet (key value : string) (next : Prog) : Prog :=
  HeaderDo (HSet key value) next.
Definition HeaderDel (key : string) (next : Prog) : Prog :=
  HeaderDo (HDel key) next.

(** Sequencing: [q] runs when [p] returns; a panic in [p] skips [q]. *)
Fixpoint seq (p q : Prog) : Prog :=
  match p with
  | Return => q
  | Panic v => Panic v
  | HeaderDo op n => HeaderDo op (seq n q)
  | WriteHeader c n => WriteHeader c (seq n q)
  | Write b n => Write b (λ res, seq (n res) q)
  | LogPrint l n => LogPrint l (seq n q)
  | StderrWrite b n => StderrWrite b (seq n q)
  | TimeNow n => TimeNow (λ t, seq (n t) q)
  | DebugStack n => DebugStack (λ s, seq (n s) q)
  | Elapse d n => Elapse d (seq n q)
  end.

Declare Scope prog_scope.
Delimit Scope prog_scope with prog.
Bind Scope prog_scope with Prog.
Notation "p ;; q" := (seq p q)
  (at level 100, q at level 200, right associativity) : prog_scope.

(** [defer func() { if rr := recover(); rr != nil { on_panic rr } }()]
    around [body]: a panic of [body] is stopped and handed to
    [on_panic]; a normal return passes through. *)
Fixpoint defer_recover (body : Prog) (on_panic : PanicValue → Prog) : Prog :=
  match body with
  | Return => Return
  | Panic v => on_panic v
  | HeaderDo op n => HeaderDo op (defer_recover n on_panic)
  | WriteHeader c n => WriteHeader c (defer_recover n on_panic)
  | Write b n => Write b (λ res, defer_recover (n res) on_panic)
  | LogPrint l n => LogPrint l (defer_recover n on_panic)
  | StderrWrite b n => StderrWrite b (defer_recover n on_panic)
  | TimeNow n => TimeNow (λ t, defer_recover (n t) on_panic)
  | DebugStack n => DebugStack (λ s, defer_recover (n s) on_panic)
  | Elapse d n => Elapse d (defer_recover n on_panic)
  end.

(** [http.HandlerFunc] and the [http.Handler] interface value, which may
    be nil. *)
Definition HandlerFunc : Type := Request → Prog.
Definition Handler : Type := option HandlerFunc.

Definition nil_dereference : PanicValue :=
  PanicError (mkError "runtime error: invalid memory address or nil pointer dereference").

(** [h.ServeHTTP(w, r)]: calling the method of a nil interface panics. *)
Definition ServeHTTP (h : Handler) (r : Request) : Prog :=
  match h with
  | Some f => f r
  | None => Panic nil_dereference
  end.

(** ** The recording response writer and the process state *)

(** The response as the client sees it: the live header map, the status
    line with the headers frozen by the first [WriteHeader] or [Write],
    and the body bytes. *)
Record Response : Type := mkResponse {
  header : gmap string (list string);
  sent : option (Z * gmap string (list string));
  body : string
}.

(** The process around one request: the response, the records written
    through [log] (without their time stamp), the writes to standard
    error, the monotonic clock in nanoseconds, and the text that the
    n-th call of [debug.Stack] returns. *)
Record World : Type := mkWorld {
  resp : Response;
  logs : list string;
  stderr : list string;
  clock : N;
  stack_text : nat → string;
  stack_calls : nat
}.

Inductive Outcome : Type :=
| Returned
| Panicked (v : PanicValue).

Definition set_resp (f : Response → Response) (w : World) : World :=
  mkWorld (f (resp w)) (logs w) (stderr w) (clock w) (stack_text w) (stack_calls w).

Definition apply_header_op (op : HeaderOp) (h : gmap string (list string)) :
    gmap string (list string) :=
  match op with
  | HSet k v => <[k := [v]]> h
  | HAdd k v => <[k := (default [] (h !! k) ++ [v])%list]> h
  | HDel k => delete k h
  | HAssign k vs => <[k := vs]> h
  end.

Definition resp_header_do (op : HeaderOp) (rs : Response) : Response :=
  mkResponse (apply_header_op op (header rs)) (sent rs) (body rs).

(** Only the first [WriteHeader] takes effect. *)
Definition resp_write_header (code : Z) (rs : Response) : Response :=
  match sent rs with
  | Some _ => rs
  | None => mkResponse (header rs) (Some (code, header rs)) (body rs)
  end.

(** [Write] sends status 200 first when no status has been sent. *)
Definition resp_write (b : string) (rs : Response) : Response :=
  let rs' := resp_write_header 200 rs in
  mkResponse (header rs') (sent rs') (body rs' +:+ b).

Definition add_log (line : string) (w : World) : World :=
  mkWorld (resp w) (logs w ++ [line])%list (stderr w) (clock w) (stack_text w) (stack_calls w).

Definition add_stderr (b : string) (w : World) : World :=
  mkWorld (resp w) (logs w) (stderr w ++ [b])%list (clock w) (stack_text w) (stack_calls w).

Definition advance (d : N) (w : World) : World :=
  mkWorld (resp w) (logs w) (stderr w) (clock w + d)%N (stack_text w) (stack_calls w).

Definition take_stack (w : World) : World :=
  mkWorld (resp w) (logs w) (stderr w) (clock w) (stack_text w) (S (stack_calls w)).

(** Running a handler program against the recording writer. *)
Fixpoint run (p : Prog) (w : World) : World * Outcome :=
  match p with
  | Return => (w, Returned)
  | Panic v => (w, Panicked v)
  | HeaderDo op n => run n (set_resp (resp_header_do op) w)
  | WriteHeader c n => run n (set_resp (resp_write_header c) w)
  | Write b n => run (n (String.length b, None)) (set_resp (resp_write b) w)
  | LogPrint l n => run n (add_log l w)
  | StderrWrite b n => run n (add_stderr b w)
  | TimeNow n => run (n (clock w)) w
  | DebugStack n => run (n (stack_text w (stack_calls w))) (take_stack w)
  | Elapse d n => run n (advance d w)
  end.

(** ** [fmt], [log] and [net/http] helpers the source calls *)

Definition newline : string := String (ascii_of_nat 10) "".

(** The [%s] verb applied to an [error] value: its message, or fmt's
    marker for a nil operand. *)
Definition fmt_s_error (err : option error) : string :=
  match err with
  | Some e => Error e
  | None => "%!s(<nil>)"
  end.

(** [http.StatusText] for the codes that appear here. *)
Definition http_StatusText (code : Z) : string :=
  if bool_decide (code = 200%Z) then "OK"
  else if bool_decide (code = 400%Z) then "Bad Request"
  else if bool_decide (code = 404%Z) then "Not Found"
  else if bool_decide (code = 500%Z) then "Internal Server Error"
  else if bool_decide (code = 503%Z) then "Service Unavailable"
  else "".

Definition http_StatusInternalServerError : Z := 500.
Definition http_StatusServiceUnavailable : Z := 503.
Definition http_StatusNotFound : Z := 404.

(** [http.Error]: the [Content-Length] header is dropped, the
    plain-text headers are set, then the status is written and the
    message with a line break ([fmt.Fprintln]). *)
Definition http_Error (msg : string) (code : Z) : Prog :=
  HeaderDel "Content-Length"
    (HeaderSet "Content-Type" "text/plain; charset=utf-8"
      (HeaderSet "X-Content-Type-Options" "nosniff"
        (WriteHeader code
          (Write (msg +:+ newline) (λ _, Return))))).

(** ** The error reporter *)

Record ErrorHandler : Type := mkErrorHandler { PanicHandler : bool }.

(** [ErrorHandler.HandleError]. *)
Definition HandleError (eh : ErrorHandler) (r : Request) (err : option error) : Prog :=
  if PanicHandler eh then
    let msg := "URI: " +:+ RequestURI r +:+ ", " +:+ fmt_s_error err in
    LogPrint ("Panic: " +:+ msg) Return
  else
    let agent := "Unknown" in
    let headers := default [] (Header r !! "User-Agent") in
    let agent := match headers with
                 | h0 :: _ => h0
                 | [] => agent
                 end in
    let msg := "Server Error - Method: " +:+ Method r +:+
               ", User Agent: " +:+ agent +:+
               ", Remote Address: " +:+ RemoteAddr r +:+
               ", Endpoint: " +:+ RequestURI r in
    match err with
    | Some e =>
        let msg := msg +:+ ", ERROR: " +:+ Error e in
        LogPrint ("Panic: " +:+ msg) Return
    | None => Return
    end.

(** ** The wrappers *)

(** The type switch of [RecoverHandler] on the recovered value. *)
Definition panic_error (rr : PanicValue) : error :=
  match rr with
  | PanicString x => errors_New x
  | PanicError x => x
  | PanicOther _ => errors_New "unknown panic"
  end.

(** [debug.PrintStack]: the stack dump goes to standard error. *)
Definition debug_PrintStack : Prog :=
  DebugStack (λ s, StderrWrite s Return).

(** The body of the deferred function of [RecoverHandler] once
    [recover] has returned the non-nil [rr].  [err] is non-nil in each
    case of the type switch, and [debug.Stack] never returns nil, so
    both guards are passed; the stack is taken three times: for the
    guard, for the reported error, and by [debug.PrintStack]. *)
Definition recovered (r : Request) (rr : PanicValue) : Prog :=
  let err := panic_error rr in
  let eh := mkErrorHandler false in
  let perr := mkError ("PANIC: " +:+ Error err) in
  (HandleError eh r (Some perr) ;;
   DebugStack (λ _,
     DebugStack (λ trace,
       let etrace := mkError ("STACKTRACE: " +:+ trace) in
       debug_PrintStack ;;
       HandleError eh r (Some etrace))) ;;
   http_Error (http_StatusText http_StatusInternalServerError)
              http_StatusInternalServerError)%prog.

Definition RecoverHandler (next : Handler) : Handler :=
  Some (λ r,
    defer_recover
      (match next with
       | Some f => f r
       | None => Return
       end)
      (recovered r)).

Definition RequestMetricsHandler (h : Handler) : Handler :=
  Some (λ r,
    TimeNow (λ start,
      let uri := RequestURI r in
      let method := Method r in
      (ServeHTTP h r ;;
       TimeNow (λ now,
         let duration := (now - start)%N in
         LogPrint ("Request: " +:+ uri +:+ " " +:+ method +:+ " " +:+ pretty duration)
                  Return))%prog)).

(** ** Compression *)

(** [compress/gzip] as the wrapper uses it: a writer that is created
    empty, turns each [Write] into zero or more writes on the underlying
    writer, and emits the rest of the stream on [Close].  [gunzip] is the
    matching reader. *)
Class GzipCodec : Type := {
  gz_writer : Type;
  gzip_NewWriter : gz_writer;
  gz_Write : gz_writer → string → gz_writer * list string;
  gz_Close : gz_writer → list string;
  gunzip : string → option string
}.

Definition join (chunks : list string) : string :=
  foldr String.append "" chunks.



(** A codec to evaluate the wrapper on: a two-byte magic number, the
    bytes as they come, and a one-byte trailer. *)
Definition framed_magic : string := "GZ".
Definition framed_trailer : string := "!".

Fixpoint drop_last (s : string) : option string :=
  match s with
  | EmptyString => None
  | String c EmptyString => if bool_decide (c = "!"%char) then Some "" else None
  | String c s' => String c <$> drop_last s'
  end.

Definition framed_gunzip (s : string) : option string :=
  match s with
  | String "G" (String "Z" s') => drop_last s'
  | _ => None
  end.

Definition framed_codec : GzipCodec := {|
  gz_writer := bool;
  gzip_NewWriter := false;
  gz_Write := λ started b,
    (true, if started : bool then [b] else [framed_magic; b]);
  gz_Close := λ started,
    if started : bool then [framed_trailer] else [framed_magic; framed_trailer];
  gunzip := framed_gunzip
|}.

Fixpoint write_all (outs : list string) (next : Prog) : Prog :=
  match outs with
  | [] => next
  | o :: rest => Write o (λ _, write_all rest next)
  end.

(** [h.ServeHTTP(gzw, r)] with [gzw = gzipResponseWriter{Writer: gz,
    ResponseWriter: w}] and [defer gz.Close()]: [Write] goes to the gzip
    writer, [Header] and [WriteHeader] to [w]; the deferred [Close] runs
    on return and on a panic, which then continues. *)
Fixpoint gzip_serve `{GzipCodec} (gz : gz_writer) (p : Prog) : Prog :=
  match p with
  | Return => write_all (gz_Close gz) Return
  | Panic v => write_all (gz_Close gz) (Panic v)
  | HeaderDo op n => HeaderDo op (gzip_serve gz n)
  | WriteHeader c n => WriteHeader c (gzip_serve gz n)
  | Write b n =>
      write_all (gz_Write gz b).2
        (gzip_serve (gz_Write gz b).1 (n (String.length b, None)))
  | LogPrint l n => LogPrint l (gzip_serve gz n)
  | StderrWrite b n => StderrWrite b (gzip_serve gz n)
  | TimeNow n => TimeNow (λ t, gzip_serve gz (n t))
  | DebugStack n => DebugStack (λ s, gzip_serve gz (n s))
  | Elapse d n => Elapse d (gzip_serve gz n)
  end.

Definition accepts_gzip (r : Request) : bool :=
  strings_Contains (Header_Get (Header r) "Accept-Encoding") "gzip".

Definition GZipHandler `{GzipCodec} (h : Handler) : Handler :=
  Some (λ r,
    if negb (accepts_gzip r) then
      ServeHTTP h r
    else
      HeaderSet "Content-Encoding" "gzip"
        (gzip_serve gzip_NewWriter (ServeHTTP h r))).

(** ** Timeout *)

Definition Second : N := 1000000000.

(** [http.timeoutWriter]: the handler's response is buffered until the
    handler is done. *)
Record timeoutWriter : Type := mkTimeoutWriter {
  tw_h : gmap string (list string);
  tw_wbuf : string;
  tw_wroteHeader : bool;
  tw_code : Z
}.

Definition tw_new : timeoutWriter := mkTimeoutWriter ∅ "" false 0.

Definition tw_header_do (op : HeaderOp) (tw : timeoutWriter) : timeoutWriter :=
  mkTimeoutWriter (apply_header_op op (tw_h tw)) (tw_wbuf tw) (tw_wroteHeader tw) (tw_code tw).

Definition tw_WriteHeader (code : Z) (tw : timeoutWriter) : timeoutWriter :=
  if tw_wroteHeader tw then tw
  else mkTimeoutWriter (tw_h tw) (tw_wbuf tw) true code.

Definition tw_Write (b : string) (tw : timeoutWriter) : timeoutWriter :=
  let tw' := tw_WriteHeader 200 tw in
  mkTimeoutWriter (tw_h tw') (tw_wbuf tw' +:+ b) (tw_wroteHeader tw') (tw_code tw').

(** The handler finished in time: its headers, status and body are
    copied to the real writer. *)
Definition tw_flush (tw : timeoutWriter) : Prog :=
  map_fold (λ k vv rest, HeaderDo (HAssign k vv) rest)
    (WriteHeader (if tw_wroteHeader tw then tw_code tw else 200)
      (Write (tw_wbuf tw) (λ _, Return)))
    (tw_h tw).

(** The deadline passed first: status 503 and the fixed message. *)
Definition timeout_reply (msg : string) : Prog :=
  WriteHeader http_StatusServiceUnavailable (Write msg (λ _, Return)).

(** [http.TimeoutHandler(h, dt, msg)] serving one request, on virtual
    time: the handler runs against a [timeoutWriter] with [remaining]
    nanoseconds left.  A step of the handler that would run past the
    deadline is cut at the deadline, the timeout reply is written, and
    nothing the handler does afterwards reaches the response.  A panic
    of the handler is raised again in the caller. *)
Fixpoint timeout_serve (remaining : N) (msg : string) (tw : timeoutWriter)
    (p : Prog) : Prog :=
  match p with
  | Return => tw_flush tw
  | Panic v => Panic v
  | HeaderDo op n => timeout_serve remaining msg (tw_header_do op tw) n
  | WriteHeader c n => timeout_serve remaining msg (tw_WriteHeader c tw) n
  | Write b n =>
      timeout_serve remaining msg (tw_Write b tw) (n (String.length b, None))
  | LogPrint l n => LogPrint l (timeout_serve remaining msg tw n)
  | StderrWrite b n => StderrWrite b (timeout_serve remaining msg tw n)
  | TimeNow n => TimeNow (λ t, timeout_serve remaining msg tw (n t))
  | DebugStack n => DebugStack (λ s, timeout_serve remaining msg tw (n s))
  | Elapse d n =>
      if (d <=? remaining)%N then
        Elapse d (timeout_serve (remaining - d) msg tw n)
      else
        Elapse remaining (timeout_reply msg)
  end.

Definition http_TimeoutHandler (h : Handler) (dt : N) (msg : string) : Handler :=
  Some (λ r, timeout_serve dt msg tw_new (ServeHTTP h r)).

Definition TimeoutHandler (h : Handler) : Handler :=
  http_TimeoutHandler h (4 * Second) "timed out".

(** ** The request multiplexer *)

(** The handlers of [net/http] that the multiplexer hands out and whose
    replies depend on the file system or on URL escaping:
    [http.FileServer(http.Dir(root))], and the permanent redirect to the
    request's URL with its path replaced. *)
Class NetHTTP : Type := {
  http_FileServer : string → HandlerFunc;
  http_RedirectToPath : string → HandlerFunc
}.

(** An instance to evaluate the multiplexer on. *)
Definition plain_http : NetHTTP := {|
  http_FileServer := λ root _,
    Write ("file under " +:+ root) (λ _, Return);
  http_RedirectToPath := λ path _,
    HeaderSet "Location" path (WriteHeader 301 Return)
|}.

Definition http_NotFoundHandler : HandlerFunc :=
  λ _, http_Error "404 page not found" http_StatusNotFound.

(** [strings.Split(s, "/")]. *)
Fixpoint split_slash (s : string) : list string :=
  match s with
  | EmptyString => [""]
  | String c s' =>
      if bool_decide (c = "/"%char) then "" :: split_slash s'
      else match split_slash s' with
           | seg :: rest => String c seg :: rest
           | [] => [String c ""]
           end
  end.

(** [path.Clean] on a rooted path, element by element: empty and [.]
    elements are dropped, [..] removes the element before it (or
    nothing at the root).  [kept] holds the elements kept so far, last
    one first. *)
Fixpoint clean_elements (elems kept : list string) : list string :=
  match elems with
  | [] => rev kept
  | e :: rest =>
      if bool_decide (e = "") || bool_decide (e = ".") then clean_elements rest kept
      else if bool_decide (e = "..") then clean_elements rest (tail kept)
      else clean_elements rest (e :: kept)
  end.

Fixpoint join_slash (elems : list string) : string :=
  match elems with
  | [] => ""
  | [e] => e
  | e :: rest => e +:+ "/" +:+ join_slash rest
  end.

Definition path_Clean (p : string) : string :=
  "/" +:+ join_slash (clean_elements (split_slash p) []).

(** [http.cleanPath]: the canonical form of a request path, keeping a
    trailing slash. *)
Definition cleanPath (p : string) : string :=
  if bool_decide (p = "") then "/"
  else
    let p := if strings_HasPrefix p "/" then p else "/" +:+ p in
    let np := path_Clean p in
    if ends_with_slash p && negb (bool_decide (np = "/")) then np +:+ "/" else np.

(** The table of [http.ServeMux]: pattern to handler. *)
Record ServeMux : Type := mkServeMux { mux_m : gmap string HandlerFunc }.

Definition http_NewServeMux : ServeMux := mkServeMux ∅.

(** Building the multiplexer can panic; the server then does not start. *)
Inductive Startup (A : Type) : Type :=
| Started (a : A)
| StartupPanic (msg : string).
Arguments Started {A} a.
Arguments StartupPanic {A} msg.

Definition startup_bind {A B : Type} (s : Startup A) (f : A → Startup B) : Startup B :=
  match s with
  | Started a => f a
  | StartupPanic msg => StartupPanic msg
  end.

(** [ServeMux.Handle]: an empty pattern, a nil handler and a pattern
    that is already registered are refused with a panic. *)
Definition mux_Handle (mux : ServeMux) (pattern : string) (h : Handler) : Startup ServeMux :=
  if bool_decide (pattern = "") then StartupPanic "http: invalid pattern"
  else match h with
       | None => StartupPanic "http: nil handler"
       | Some f =>
           match mux_m mux !! pattern with
           | Some _ => StartupPanic ("http: multiple registrations for " +:+ pattern)
           | None => Started (mkServeMux (<[pattern := f]> (mux_m mux)))
           end
       end.

(** [ServeMux.HandleFunc]. *)
Definition mux_HandleFunc (mux : ServeMux) (pattern : string) (h : Handler) : Startup ServeMux :=
  match h with
  | None => StartupPanic "http: nil handler"
  | Some f => mux_Handle mux pattern (Some f)
  end.

(** The longest registered pattern that ends in a slash and is a prefix
    of [path]. *)
Definition longest_subtree (mux : ServeMux) (path : string) : option (string * HandlerFunc) :=
  map_fold
    (λ pattern h best,
       if ends_with_slash pattern && strings_HasPrefix path pattern &&
          match best with
          | Some (p', _) => (String.length p' <? String.length pattern)%nat
          | None => true
          end
       then Some (pattern, h) else best)
    None (mux_m mux).

(** [ServeMux.match]: the exact pattern first, then the longest subtree. *)
Definition mux_match (mux : ServeMux) (path : string) : option HandlerFunc :=
  match mux_m mux !! path with
  | Some h => Some h
  | None => snd <$> longest_subtree mux path
  end.

Definition mux_handler (mux : ServeMux) (path : string) : HandlerFunc :=
  default http_NotFoundHandler (mux_match mux path).

(** [ServeMux.shouldRedirectRLocked]: [path] is not registered but
    [path/] is. *)
Definition shouldRedirect (mux : ServeMux) (path : string) : bool :=
  match mux_m mux !! path with
  | Some _ => false
  | None =>
      if bool_decide (path = "") then false
      else match mux_m mux !! (path +:+ "/") with
           | Some _ => negb (ends_with_slash path)
           | None => false
           end
  end.

(** [ServeMux.Handler]: which handler serves the request.  A path that
    is not in canonical form is answered with a redirect to its
    canonical form; [CONNECT] requests are not canonicalised.  The
    model covers path patterns and requests in origin form: patterns
    that start with a host name, the method and wildcard patterns of
    later Go versions, and the asterisk form of [OPTIONS] are outside
    it. *)
Definition mux_Handler `{NetHTTP} (mux : ServeMux) (r : Request) : HandlerFunc :=
  if bool_decide (Method r = "CONNECT") then
    if shouldRedirect mux (URL_Path r) then http_RedirectToPath (URL_Path r +:+ "/")
    else mux_handler mux (URL_Path r)
  else
    let path := cleanPath (URL_Path r) in
    if shouldRedirect mux path then http_RedirectToPath (path +:+ "/")
    else if negb (bool_decide (path = URL_Path r)) then http_RedirectToPath path
    else mux_handler mux (URL_Path r).

(** [ServeMux.ServeHTTP]. *)
Definition mux_ServeHTTP `{NetHTTP} (mux : ServeMux) : HandlerFunc :=
  λ r, mux_Handler mux r r.

(** ** The route table and the pipeline *)

(** [ControllerFunc] is a function value and may be nil. *)
Definition ControllerFunc : Type := option HandlerFunc.

Record Router : Type := mkRouter { routerMap : gmap string ControllerFunc }.

Definition NewRouter : Router := mkRouter ∅.

Definition Router_routes (r : Router) : gmap string ControllerFunc := routerMap r.

Definition GET (r : Router) (path : string) (controller : ControllerFunc) : Router :=
  mkRouter (<[path := controller]> (routerMap r)).

Record Config : Type := mkConfig {
  Router_ : Router;
  Port : string;
  StaticFilesDirPath : string;
  ViewsDirPath : string
}.

(** [routes]: the static files under [/css/], then every entry of the
    route table. *)
Definition routes `{NetHTTP} (cfg : Config) : Startup ServeMux :=
  let mux := http_NewServeMux in
  map_fold
    (λ path handler acc,
       startup_bind acc (λ mux, mux_HandleFunc mux path handler))
    (mux_Handle mux "/css/" (Some (http_FileServer (StaticFilesDirPath cfg))))
    (Router_routes (Router_ cfg)).

(** [alice.Constructor], [alice.New] and [Chain.Then]: the loop of
    [Then] applies the constructors from the last to the first, so the
    first one ends up outermost; a nil final handler stands for
    [http.DefaultServeMux], taken here with no registrations. *)
Definition Constructor : Type := Handler → Handler.

Record Chain : Type := mkChain { constructors : list Constructor }.

Definition alice_New (cs : list Constructor) : Chain := mkChain cs.

Definition Then `{NetHTTP} (c : Chain) (h : Handler) : Handler :=
  let h := match h with
           | None => Some (mux_ServeHTTP http_NewServeMux)
           | Some _ => h
           end in
  fold_left (λ h ctor, ctor h) (rev (constructors c)) h.

(** [handler]. *)
Definition handler `{NetHTTP} `{GzipCodec} (cfg : Config) : Startup Handler :=
  let handlers := [TimeoutHandler; RecoverHandler; RequestMetricsHandler; GZipHandler] in
  startup_bind (routes cfg)
    (λ mux, Started (Then (alice_New handlers) (Some (mux_ServeHTTP mux)))).

(** Registrations in program order, as calls of [Router.GET] on a new
    router. *)
Definition register_all (regs : list (string * ControllerFunc)) : Router :=
  fold_left (λ rt reg, GET rt reg.1 reg.2) regs NewRouter.

(** ** Vocabulary of the specification *)

(** [part] occurs in [line]. *)
Definition Embeds (part line : string) : Prop :=
  ∃ pre post, line = pre +:+ part +:+ post.

(** The user agent the specification names: the first [User-Agent]
    value if one is present, otherwise the sentinel. *)
Definition user_agent_of (r : Request) : string :=
  match Header r !! "User-Agent" with
  | Some (first :: _) => first
  | _ => "Unknown"
  end.

(** The diagnostic line of the reporter for an error text, off the
    panic-labelled path. *)
Definition report_line (r : Request) (text : string) : string :=
  "Panic: " +:+ ("Server Error - Method: " +:+ Method r +:+
                 ", User Agent: " +:+ user_agent_of r +:+
                 ", Remote Address: " +:+ RemoteAddr r +:+
                 ", Endpoint: " +:+ RequestURI r) +:+ ", ERROR: " +:+ text.

(** The reply of [http.Error] with status 500 on a response. *)
Definition error_reply (rs : Response) : Response :=
  resp_write ("Internal Server Error" +:+ newline)
    (resp_write_header 500
      (resp_header_do (HSet "X-Content-Type-Options" "nosniff")
        (resp_header_do (HSet "Content-Type" "text/plain; charset=utf-8")
          (resp_header_do (HDel "Content-Length") rs)))).

(** The message the specification gives a panic value. *)
Definition normalized_message (v : PanicValue) : string :=
  match v with
  | PanicString s => s
  | PanicError e => Error e
  | PanicOther _ => "unknown panic"
  end.




(** Two process states that agree on everything but the response and
    the output streams. *)
Definition same_env (w1 w2 : World) : Prop :=
  clock w1 = clock w2 ∧ stack_text w1 = stack_text w2 ∧ stack_calls w1 = stack_calls w2.

(** ** Inputs to evaluate the model on *)

Definition fresh_response : Response := mkResponse ∅ None "".

Definition fresh_world : World :=
  mkWorld fresh_response [] [] 0 (λ n, "goroutine 1 [running] #" +:+ pretty n) 0.

Definition sample_request : Request :=
  mkRequest "POST" "/orders?id=7" "/orders" "10.0.0.1:5123"
    {[ "User-Agent" := ["curl/8.0"]; "Accept-Encoding" := ["deflate, gzip"] ]}.


Definition hello_handler : HandlerFunc :=
  λ _, Write "hello, " (λ _, Write "world" (λ _, Return)).

Definition panicking_handler : HandlerFunc :=
  λ _, Panic (PanicString "boom").

Definition leaky_handler : HandlerFunc :=
  λ _, Write "partial" (λ _, Panic (PanicString "boom")).

Definition slow_handler : HandlerFunc :=
  λ _, Write "early" (λ _, Elapse (5 * Second) (Write "late" (λ _, Return))).

Definition sample_config (rt : Router) : Config :=
  mkConfig rt "8080" "./static" "./views".

(** ** Vocabulary for the wrappers and the multiplexer *)

(** Two process states that differ at most in the response. *)
Definition same_but_resp (w1 w2 : World) : Prop :=
  logs w1 = logs w2 ∧ stderr w1 = stderr w2 ∧ same_env w1 w2.

(** The process state [w] with its response replaced. *)
Definition with_resp (rs : Response) (w : World) : World :=
  set_resp (λ _, rs) w.

(** The [timeoutWriter] holds what a response writer that starts fresh
    would hold: the same header map, the same bytes, the same status. *)
Definition tw_holds (tw : timeoutWriter) (rs : Response) : Prop :=
  tw_h tw = header rs ∧ tw_wbuf tw = body rs ∧
  match sent rs with
  | None => tw_wroteHeader tw = false
  | Some (code, _) => tw_wroteHeader tw = true ∧ tw_code tw = code
  end.

(** The status a response carries, 200 when the handler set none. *)
Definition status_or_200 (rs : Response) : Z :=
  match sent rs with
  | Some (code, _) => code
  | None => 200
  end.


(** More inputs to evaluate the model on. *)
Definition quick_handler : HandlerFunc :=
  λ _, HeaderSet "X-Request" "1"
         (WriteHeader 201 (Write "made" (λ _, Elapse (3 * Second) Return))).

Definition quick_done : World :=
  (run (quick_handler sample_request) (with_resp fresh_response fresh_world)).1.

Definition leaky_done : World :=
  (run (leaky_handler sample_request) (with_resp fresh_response fresh_world)).1.




(** ** The asset map and the template helpers *)

(** [stringMap]: a [sync.Map] that holds strings; every write goes
    through [Store], so every stored value is a string and the type
    assertion of [Load] succeeds on every key that is present. *)
Record stringMap : Type := mkStringMap { data : gmap string string }.

Definition stringMap_Load (m : stringMap) (key : string) : string * bool :=
  match data m !! key with
  | None => ("", false)
  | Some s => (s, true)
  end.

Definition stringMap_Store (m : stringMap) (key value : string) : stringMap :=
  mkStringMap (<[key := value]> (data m)).

(** [path/filepath] where the separator is the slash.  [Clean] on a
    path that is not rooted keeps the [..] elements it cannot resolve;
    [kept] holds the elements kept so far, last one first. *)
Fixpoint clean_relative (elems kept : list string) : list string :=
  match elems with
  | [] => rev kept
  | e :: rest =>
      if bool_decide (e = "") || bool_decide (e = ".") then clean_relative rest kept
      else if bool_decide (e = "..") then
        match kept with
        | [] => clean_relative rest [".."]
        | k :: ks =>
            if bool_decide (k = "..") then clean_relative rest (".." :: kept)
            else clean_relative rest ks
        end
      else clean_relative rest (e :: kept)
  end.

Definition filepath_Clean (p : string) : string :=
  if bool_decide (p = "") then "."
  else if strings_HasPrefix p "/" then path_Clean p
  else
    let out := join_slash (clean_relative (split_slash p) []) in
    if bool_decide (out = "") then "." else out.

(** [filepath.Join]: leading empty elements are skipped, the rest is
    joined with the separator and cleaned; no element gives "". *)
Fixpoint filepath_Join (elem : list string) : string :=
  match elem with
  | [] => ""
  | e :: rest =>
      if bool_decide (e = "") then filepath_Join rest
      else filepath_Clean (join_slash (e :: rest))
  end.

(** [filepath.ToSlash] leaves a path alone when the separator is the
    slash. *)
Definition filepath_ToSlash (p : string) : string := p.

(** [assetPathFor], with the package variable [assetMap] as an
    argument. *)
Definition assetPathFor (assetMap : stringMap) (file : string) : string :=
  let '(filePath, ok) := stringMap_Load assetMap file in
  let filePath := if bool_decide (filePath = "") || negb ok then file else filePath in
  filepath_ToSlash (filepath_Join ["/public/assets"; filePath]).

Definition assetPath (assetMap : stringMap) (file : string) : string * option error :=
  (assetPathFor assetMap file, None).

(** [loadManifest]: [decoded] is what [json.Decoder.Decode] leaves in
    the map and returns for the manifest that was read. *)
Definition loadManifest (decoded : gmap string string * option error)
    (assetMap : stringMap) : stringMap * option error :=
  let '(m, err) := decoded in
  match err with
  | Some e => (assetMap, Some e)
  | None => (map_fold (λ k v acc, stringMap_Store acc k v) assetMap m, None)
  end.

Definition dquote : string := String (ascii_of_nat 34) "".

(** [css] and [js]: the tag is a [template.HTML], that is, a string
    that is not escaped again. *)
Definition css (assetMap : stringMap) (file : string) : string :=
  let '(filePath, ok) := stringMap_Load assetMap file in
  let filePath := if bool_decide (filePath = "") || negb ok then file else filePath in
  let path := filepath_ToSlash (filepath_Join ["views/assets/css"; filePath]) in
  "<link rel=" +:+ dquote +:+ "stylesheet" +:+ dquote +:+ " href=" +:+ dquote +:+
  "/" +:+ path +:+ dquote +:+ ">".

Definition js (assetMap : stringMap) (file : string) : string :=
  let '(filePath, ok) := stringMap_Load assetMap file in
  let filePath := if bool_decide (filePath = "") || negb ok then file else filePath in
  let path := filepath_ToSlash (filepath_Join ["view/assets/js"; filePath]) in
  "<script type=" +:+ dquote +:+ "text/javascript" +:+ dquote +:+ " src=" +:+ dquote +:+
  "/" +:+ path +:+ dquote +:+ "></script>".

(** ** The working directory and the templates *)

(** What the process is run on: [runtime.GOOS], the result of
    [os.Getwd], and the quoting of the [%q] verb. *)
Class Platform : Type := {
  runtime_GOOS : string;
  os_Getwd : string * option error;
  fmt_q : string → string
}.

(** A call that prints to standard output and returns or panics. *)
Inductive Called (A : Type) : Type :=
| Done (stdout : list string) (a : A)
| Panics (stdout : list string) (v : PanicValue).
Arguments Done {A} stdout a.
Arguments Panics {A} stdout v.

Definition called_bind {A B : Type} (c : Called A) (f : A → Called B) : Called B :=
  match c with
  | Done out a =>
      match f a with
      | Done out' b => Done (out ++ out')%list b
      | Panics out' v => Panics (out ++ out')%list v
      end
  | Panics out v => Panics out v
  end.

(** [strings.Split] with a separator of one byte. *)
Fixpoint split_on (sep : ascii) (s : string) : list string :=
  match s with
  | EmptyString => [""]
  | String c s' =>
      if bool_decide (c = sep) then "" :: split_on sep s'
      else match split_on sep s' with
           | seg :: rest => String c seg :: rest
           | [] => [String c ""]
           end
  end.

Definition backslash : ascii := ascii_of_nat 92.

(** [parts[len(parts)-1]]. *)
Definition last_part (parts : list string) : string := default "" (last parts).

Definition workingDirectory `{Platform} : Called string :=
  let '(dir, err) := os_Getwd in
  match err with
  | Some e => Panics [] (PanicError e)
  | None =>
      let basePath :=
        if bool_decide (runtime_GOOS = "windows")
        then last_part (split_on backslash dir)
        else last_part (split_on "/"%char dir) in
      Done ["Current working directory: " +:+ fmt_q dir +:+ newline;
            "Base directory name:      " +:+ fmt_q basePath +:+ newline]
           basePath
  end.

Definition DirectoryPath `{Platform} : Called string :=
  called_bind workingDirectory (λ viewsDirPath,
    Done [] (if bool_decide (viewsDirPath = "phil-pay") then "./web/views"
             else "./views")).

(** [html/template] as [parseTemplates] and [renderTemplates] use it:
    parsing a list of files gives a template or an error; executing a
    template on the data writes chunks of output and may stop with an
    error. *)
Class HTMLTemplate : Type := {
  Template : Type;
  template_ParseFiles : list string → Template * option error;
  template_Execute : Template → gmap string GoValue → list string * option error
}.

(** [parseTemplates]; [template.Must] panics with the parse error. *)
Definition parseTemplates `{Platform} `{HTMLTemplate} (files : list string) :
    Called Template :=
  called_bind DirectoryPath (λ dir,
    let viewsDirPath := dir +:+ "/templates" in
    let paths := map (λ file, filepath_Join [viewsDirPath; file]) files in
    let '(tmpl, err) := template_ParseFiles paths in
    match err with
    | Some e => Panics [] (PanicError e)
    | None => Done [] tmpl
    end).

(** [renderTemplates]: the writes of [Execute] on the response writer
    and the error it returns. *)
Definition renderTemplates `{Platform} `{HTMLTemplate} (data : gmap string GoValue)
    (files : list string) : Called (list string * option error) :=
  called_bind (parseTemplates files) (λ tmpl, Done [] (template_Execute tmpl data)).

(** [logErrorAndRespond]: the record handed to the logger and the
    operation on the response writer. *)
Definition logErrorAndRespond (message : string) (err : error) : string * Prog :=
  (message +:+ ": " +:+ Error err, WriteHeader http_StatusInternalServerError Return).

(** What a call of [Render] does: the lines printed on standard output,
    the records handed to the error logger, and the handler program on
    the response writer. *)
Record Rendered : Type := mkRendered {
  render_stdout : list string;
  render_errors : list string;
  render_prog : Prog
}.

Definition Render `{Platform} `{HTMLTemplate} (r : Request) (templateFiles : list string)
    (data : option (gmap string GoValue)) : Rendered :=
  let data := default ∅ data in
  let layoutFiles := (["index.html"; "navbar.html"] ++ templateFiles)%list in
  match renderTemplates data layoutFiles with
  | Panics out v =>
      mkRendered out [] (HeaderSet "Content-Type" "text/html" (Panic v))
  | Done out (chunks, None) =>
      mkRendered out [] (HeaderSet "Content-Type" "text/html" (write_all chunks Return))
  | Done out (chunks, Some err) =>
      let '(line, respond) := logErrorAndRespond "error executing template" err in
      mkRendered out [line]
        (HeaderSet "Content-Type" "text/html" (write_all chunks respond))
  end.

(** Instances to evaluate the helpers on. *)
Definition unix_in (dir : string) : Platform := {|
  runtime_GOOS := "linux";
  os_Getwd := (dir, None);
  fmt_q := λ s, dquote +:+ s +:+ dquote
|}.

Definition failing_templates (chunks : list string) (e : error) : HTMLTemplate := {|
  Template := list string;
  template_ParseFiles := λ paths, (paths, None);
  template_Execute := λ _ _, (chunks, Some e)
|}.

Definition unparsable_templates (e : error) : HTMLTemplate := {|
  Template := list string;
  template_ParseFiles := λ paths, (paths, Some e);
  template_Execute := λ _ _, ([], None)
|}.

(** No element of the path is [..]. *)
Definition no_dotdot (p : string) : Prop := ".." ∉ split_slash p.

(** The path is [base] or lies below it. *)
Definition under (base p : string) : Prop :=
  p = base ∨ strings_HasPrefix p (base +:+ "/") = true.

(** [strings.Join] with a separator of one byte. *)
Fixpoint join_on (sep : ascii) (parts : list string) : string :=
  match parts with
  | [] => ""
  | [part] => part
  | part :: rest => part +:+ String sep (join_on sep rest)
  end.

(** The separator [workingDirectory] splits at. *)
Definition separator_of (goos : string) : ascii :=
  if bool_decide (goos = "windows") then backslash else "/"%char.

(** The response after the chunks have been written to it in order. *)
Definition written (outs : list string) (rs : Response) : Response :=
  fold_left (λ rs o, resp_write o rs) outs rs.

(** Header maps are keyed by string literals; the proofs rewrite with
    lemmas rather than unfold lookups and updates. *)
Arguments apply_header_op : simpl never.
Arguments Header_Get : simpl never.
Arguments accepts_gzip : simpl never.
Arguments HandleError : simpl never.
Arguments http_Error : simpl never.
Arguments report_line : simpl never.
Arguments error_reply : simpl never.
Arguments user_agent_of : simpl never.

(** * Properties *)

(** ** Strings *)

Lemma append_cons (c : ascii) (s1 s2 : string) :
  String c s1 +:+ s2 = String c (s1 +:+ s2).
Proof. reflexivity. Qed.

Lemma append_assoc (s1 s2 s3 : string) : (s1 +:+ s2) +:+ s3 = s1 +:+ s2 +:+ s3.
Proof.
  induction s1 as [|c s1 IH]; [reflexivity|].
  rewrite !append_cons. by f_equal.
Qed.

Lemma append_nil_r (s : string) : s +:+ "" = s.
Proof.
  induction s as [|c s IH]; [reflexivity|].
  rewrite append_cons. by f_equal.
Qed.

Lemma Embeds_here (pre part post : string) : Embeds part (pre +:+ part +:+ post).
Proof. by exists pre, post. Qed.

Lemma Embeds_end (pre part : string) : Embeds part (pre +:+ part).
Proof. exists pre, "". by rewrite append_nil_r. Qed.

Lemma Embeds_prepend (pre part line : string) : Embeds part line → Embeds part (pre +:+ line).
Proof.
  intros (a & b & ->). exists (pre +:+ a), b. by rewrite append_assoc.
Qed.

Lemma Embeds_append (part line post : string) : Embeds part line → Embeds part (line +:+ post).
Proof.
  intros (a & b & ->). exists a, (b +:+ post). by rewrite !append_assoc.
Qed.

Create HintDb embeds.
#[local] Hint Resolve Embeds_here Embeds_end Embeds_prepend Embeds_append : embeds.

(** ** Running composed programs *)

Ltac prog_induction p :=
  induction p as [ | v | op n IH | c n IH | b n IH | l n IH | b n IH
                 | n IH | n IH | d n IH ].

Lemma run_seq (p q : Prog) (w : World) :
  run (p ;; q) w =
  match run p w with
  | (w', Returned) => run q w'
  | (w', Panicked v) => (w', Panicked v)
  end.
Proof. revert w. prog_induction p; intros w; simpl; auto. Qed.

Lemma run_defer_recover (body : Prog) (on_panic : PanicValue → Prog) (w : World) :
  run (defer_recover body on_panic) w =
  match run body w with
  | (w', Returned) => (w', Returned)
  | (w', Panicked v) => run (on_panic v) w'
  end.
Proof. revert w. prog_induction body; intros w; simpl; auto. Qed.

(** ** The error reporter *)

Lemma HandleError_reports (r : Request) (e : error) (w : World) :
  run (HandleError (mkErrorHandler false) r (Some e)) w =
  (add_log (report_line r (Error e)) w, Returned).
Proof.
  unfold HandleError, report_line, user_agent_of. simpl.
  destruct (Header r !! "User-Agent") as [[|h0 hs]|]; reflexivity.
Qed.

(** C6 (as amended).  A call of [HandleError] emits exactly one log
    record on the panic-labelled path, whatever the error, and exactly
    one on the other path when an error is present; that record embeds
    the request method, the user agent (first [User-Agent] value, else
    "Unknown"), the remote address, the request target and the error
    text.  On the other path with a nil error no record is emitted. *)
Theorem HandleError_records (r : Request) (w : World) :
  (∀ err, ∃ line,
      run (HandleError (mkErrorHandler true) r err) w = (add_log line w, Returned)) ∧
  (∀ e, ∃ line,
      run (HandleError (mkErrorHandler false) r (Some e)) w = (add_log line w, Returned) ∧
      Embeds (Method r) line ∧ Embeds (user_agent_of r) line ∧
      Embeds (RemoteAddr r) line ∧ Embeds (RequestURI r) line ∧
      Embeds (Error e) line) ∧
  run (HandleError (mkErrorHandler false) r None) w = (w, Returned).
Proof.
  split; [|split].
  - intros err. eexists. reflexivity.
  - intros e. eexists. split; [apply HandleError_reports|].
    unfold report_line. repeat split; rewrite ?append_assoc; auto 20 with embeds.
  - unfold HandleError. simpl. reflexivity.
Qed.

(** C6, the claim as stated fails: on the path that is not
    panic-labelled a call with a nil error emits no log record. *)
Lemma HandleError_nil_error_silent :
  logs (run (HandleError (mkErrorHandler false) sample_request None) fresh_world).1 = [].
Proof. reflexivity. Qed.

(** ** Recovery *)

Lemma panic_message_normalized (v : PanicValue) :
  Error (panic_error v) = normalized_message v.
Proof. by destruct v. Qed.

(** What the deferred function does once it has recovered [v]: two
    records through the reporter, the stack dump on standard error, and
    the reply of [http.Error]. *)
Lemma run_recovered (r : Request) (v : PanicValue) (w : World) :
  run (recovered r v) w =
  (mkWorld (error_reply (resp w))
     (logs w ++ [report_line r ("PANIC: " +:+ normalized_message v);
                 report_line r ("STACKTRACE: " +:+ stack_text w (S (stack_calls w)))])%list
     (stderr w ++ [stack_text w (S (S (stack_calls w)))])%list
     (clock w) (stack_text w) (S (S (S (stack_calls w)))),
   Returned).
Proof.
  unfold recovered. rewrite run_seq, HandleError_reports.
  rewrite panic_message_normalized, run_seq. cbn [run].
  rewrite run_seq. unfold debug_PrintStack. cbn [run].
  rewrite HandleError_reports.
  unfold http_Error, HeaderDel, HeaderSet. cbn [run].
  destruct w as [rs lg se ck st sc].
  cbv [set_resp add_log add_stderr take_stack error_reply
       resp logs stderr clock stack_text stack_calls Error].
  by rewrite <- !app_assoc.
Qed.

Lemma run_RecoverHandler (next : HandlerFunc) (r : Request) (w : World) :
  run (ServeHTTP (RecoverHandler (Some next)) r) w =
  match run (next r) w with
  | (w', Returned) => (w', Returned)
  | (w', Panicked v) => run (recovered r v) w'
  end.
Proof. simpl. apply run_defer_recover. Qed.

(** C9.  The recovered panic value is normalised by its dynamic type: a
    string becomes an error with that message, an error is used as it
    is, anything else gives "unknown panic"; the message handed to the
    reporter is that message behind the marker [PANIC: ]. *)
Theorem RecoverHandler_normalizes (next : HandlerFunc) (r : Request) (w w' : World)
    (v : PanicValue) :
  run (next r) w = (w', Panicked v) →
  (∀ s, panic_error (PanicString s) = errors_New s) ∧
  (∀ e, panic_error (PanicError e) = e) ∧
  (∀ x, panic_error (PanicOther x) = errors_New "unknown panic") ∧
  ∃ pre stack_line : string,
    logs (run (ServeHTTP (RecoverHandler (Some next)) r) w).1 =
    (logs w' ++ [pre +:+ "PANIC: " +:+ normalized_message v; stack_line])%list.
Proof.
  intros Hrun. repeat split.
  rewrite run_RecoverHandler, Hrun, run_recovered. simpl.
  unfold report_line. eexists _, _. rewrite <- !append_assoc. reflexivity.
Qed.

(** The normalisation at a handler that panics with the string "boom". *)
Lemma RecoverHandler_normalizes_witness :
  (∀ s, panic_error (PanicString s) = errors_New s) ∧
  (∀ e, panic_error (PanicError e) = e) ∧
  (∀ x, panic_error (PanicOther x) = errors_New "unknown panic") ∧
  ∃ pre stack_line : string,
    logs (run (ServeHTTP (RecoverHandler (Some panicking_handler)) sample_request)
              fresh_world).1 =
    (logs fresh_world ++
      [pre +:+ "PANIC: " +:+ normalized_message (PanicString "boom"); stack_line])%list.
Proof.
  apply (RecoverHandler_normalizes panicking_handler sample_request
           fresh_world fresh_world (PanicString "boom")).
  reflexivity.
Defined.

(** C2 (as amended).  When the downstream handler panics, with any
    value, before anything of the response has been sent, the wrapper
    stops the panic, the response is a single status 500 whose body is
    the standard status text and a line break, whatever the stack dump
    says, and the reporter receives exactly two records: one marked
    [PANIC: ] and one marked [STACKTRACE: ]. *)
Theorem RecoverHandler_replies_500 (next : HandlerFunc) (r : Request) (w w' : World)
    (v : PanicValue) :
  run (next r) w = (w', Panicked v) →
  sent (resp w') = None →
  body (resp w') = "" →
  ∃ w'' panic_line stack_line,
    run (ServeHTTP (RecoverHandler (Some next)) r) w = (w'', Returned) ∧
    fst <$> sent (resp w'') = Some 500%Z ∧
    body (resp w'') = "Internal Server Error" +:+ newline ∧
    logs w'' = (logs w' ++ [panic_line; stack_line])%list ∧
    Embeds ("PANIC: " +:+ normalized_message v) panic_line ∧
    Embeds "STACKTRACE: " stack_line.
Proof.
  intros Hrun Hsent Hbody.
  rewrite run_RecoverHandler, Hrun, run_recovered.
  eexists _, _, _. split; [reflexivity|]. simpl.
  unfold error_reply, resp_write, resp_write_header. simpl.
  rewrite Hsent, Hbody. simpl.
  repeat split; unfold report_line; rewrite ?append_assoc; auto 20 with embeds.
Qed.

(** The reply at a handler that panics before it writes anything. *)
Lemma RecoverHandler_replies_500_witness :
  ∃ w'' panic_line stack_line,
    run (ServeHTTP (RecoverHandler (Some panicking_handler)) sample_request) fresh_world =
      (w'', Returned) ∧
    fst <$> sent (resp w'') = Some 500%Z ∧
    body (resp w'') = "Internal Server Error" +:+ newline ∧
    logs w'' = (logs fresh_world ++ [panic_line; stack_line])%list ∧
    Embeds ("PANIC: " +:+ normalized_message (PanicString "boom")) panic_line ∧
    Embeds "STACKTRACE: " stack_line.
Proof.
  apply (RecoverHandler_replies_500 panicking_handler sample_request
           fresh_world fresh_world (PanicString "boom")); reflexivity.
Defined.

(** C2, the claim as stated fails: a handler that has written part of
    its body before it panics leaves status 200 on the response, and
    the body is that partial output followed by the error text. *)
Lemma RecoverHandler_after_partial_write :
  fst <$> sent (resp (run (ServeHTTP (RecoverHandler (Some leaky_handler)) sample_request)
                          fresh_world).1) = Some 200%Z ∧
  body (resp (run (ServeHTTP (RecoverHandler (Some leaky_handler)) sample_request)
                  fresh_world).1) = "partial" +:+ "Internal Server Error" +:+ newline.
Proof. split; reflexivity. Qed.

(** In the pipeline of [handler] the compression wrapper sits inside
    the recovery wrapper: for a request that accepts gzip its deferred
    [Close] writes the end of the gzip stream while the panic unwinds,
    so the recovery wrapper finds the status already sent. *)
Example pipeline_panic_under_gzip :
  match @handler plain_http framed_codec
          (sample_config (register_all [("/orders", Some panicking_handler)])) with
  | Started composed =>
      fst <$> sent (resp (run (ServeHTTP composed sample_request) fresh_world).1) =
        Some 200%Z ∧
      body (resp (run (ServeHTTP composed sample_request) fresh_world).1) =
        "GZ!" +:+ "Internal Server Error" +:+ newline
  | StartupPanic _ => False
  end.
Proof. vm_compute. split; reflexivity. Qed.

(** ** Metrics *)

(** C5 (as amended).  When the downstream handler returns, the metrics
    wrapper emits exactly one log line, after it, which embeds the
    request's method and URI and the time the handler took; when the
    downstream handler panics the wrapper emits nothing and the panic
    passes on unchanged to the enclosing wrapper. *)
Theorem RequestMetricsHandler_logs (h : Handler) (r : Request) (w : World) :
  match run (ServeHTTP h r) w with
  | (w', Returned) =>
      ∃ line,
        run (ServeHTTP (RequestMetricsHandler h) r) w = (add_log line w', Returned) ∧
        Embeds (Method r) line ∧ Embeds (RequestURI r) line ∧
        Embeds (pretty (clock w' - clock w)%N) line
  | (w', Panicked v) =>
      run (ServeHTTP (RequestMetricsHandler h) r) w = (w', Panicked v)
  end.
Proof.
  simpl. rewrite run_seq.
  destruct (run (ServeHTTP h r) w) as [w' [|v]]; [|reflexivity].
  eexists. split; [reflexivity|].
  repeat split; auto 20 with embeds.
Qed.

(** C5, the claim as stated fails: under the recovery wrapper a
    panicking handler leaves the two records of the reporter in the log
    and no line of the metrics wrapper. *)
Lemma RequestMetricsHandler_silent_on_panic :
  run (ServeHTTP (RequestMetricsHandler (Some panicking_handler)) sample_request) fresh_world =
    (fresh_world, Panicked (PanicString "boom")) ∧
  logs (run (ServeHTTP (RecoverHandler (RequestMetricsHandler (Some panicking_handler)))
                       sample_request) fresh_world).1 =
    [report_line sample_request "PANIC: boom";
     report_line sample_request "STACKTRACE: goroutine 1 [running] #1"].
Proof. split; reflexivity. Qed.

(** ** Compression *)



(** The steps of [run] that leave the response alone keep two process
    states in agreement. *)
Lemma same_env_step (f : World → World) (w1 w2 : World) :
  ((∃ l, f = add_log l) ∨ (∃ b, f = add_stderr b) ∨
   f = take_stack ∨ ∃ d, f = advance d) →
  same_env w1 w2 → same_env (f w1) (f w2).
Proof.
  intros Hf (Hc & Ht & Hn).
  destruct Hf as [[l ->]|[[b ->]|[->|[d ->]]]]; unfold same_env; simpl;
    by rewrite ?Hc, ?Ht, ?Hn.
Qed.

Lemma body_resp_write_header (c : Z) (rs : Response) :
  body (resp_write_header c rs) = body rs.
Proof. unfold resp_write_header. by destruct (sent rs). Qed.

Lemma body_resp_write (b : string) (rs : Response) :
  body (resp_write b rs) = body rs +:+ b.
Proof. unfold resp_write. cbn [body]. by rewrite body_resp_write_header. Qed.

Lemma join_nil : join [] = "".
Proof. reflexivity. Qed.

Lemma join_cons (b : string) (rest : list string) : join (b :: rest) = b +:+ join rest.
Proof. reflexivity. Qed.








(** ** Timeout *)

Lemma body_timeout_reply (msg : string) (rs : Response) :
  body (resp_write msg (resp_write_header http_StatusServiceUnavailable rs)) =
  body rs +:+ msg.
Proof. by rewrite body_resp_write, body_resp_write_header. Qed.

(** A handler that is still running when the deadline passes: the reply
    is the timeout reply, written at the deadline, whatever the handler
    had put into its buffer. *)
Lemma timeout_serve_deadline (msg : string) (p : Prog) :
  ∀ (remaining : N) (tw : timeoutWriter) (w1 w2 : World),
    same_env w1 w2 →
    (clock w1 + remaining < clock (run p w1).1)%N →
    ∃ w', run (timeout_serve remaining msg tw p) w2 = (w', Returned) ∧
          resp w' = resp_write msg (resp_write_header http_StatusServiceUnavailable (resp w2)) ∧
          clock w' = (clock w2 + remaining)%N.
Proof.
  prog_induction p; intros remaining tw w1 w2 Henv Hlate;
    cbn [run fst] in Hlate; cbn [run timeout_serve].
  - lia.
  - lia.
  - apply (IH remaining _ (set_resp (resp_header_do op) w1) w2); done.
  - apply (IH remaining _ (set_resp (resp_write_header c) w1) w2); done.
  - apply (IH _ remaining _ (set_resp (resp_write b) w1) w2); done.
  - destruct (IH remaining tw (add_log l w1) (add_log l w2)) as (w' & ? & ? & ?);
      [apply same_env_step; [left; by exists l|done]|done|by exists w'].
  - destruct (IH remaining tw (add_stderr b w1) (add_stderr b w2)) as (w' & ? & ? & ?);
      [apply same_env_step; [right; left; by exists b|done]|done|by exists w'].
  - apply (IH (clock w2) remaining tw w1 w2); [done|].
    destruct Henv as (Hc & _ & _). by rewrite <- Hc.
  - destruct (IH (stack_text w2 (stack_calls w2)) remaining tw
                 (take_stack w1) (take_stack w2)) as (w' & ? & ? & ?);
      [apply same_env_step; [right; right; by left|done]| |by exists w'].
    destruct Henv as (_ & Ht & Hn). by rewrite <- Ht, <- Hn.
  - destruct (N.leb_spec d remaining) as [Hle|Hgt]; simpl.
    + destruct (IH (remaining - d)%N tw (advance d w1) (advance d w2))
        as (w' & Hrun & Hresp & Hclock).
      { apply same_env_step; [right; right; right; by exists d|done]. }
      { simpl. lia. }
      exists w'. split; [done|]. split; [done|]. simpl in Hclock. lia.
    + eexists. split; [reflexivity|]. split; reflexivity.
Qed.

(** C7.  When the downstream handler runs longer than the ceiling, the
    response carries none of the handler's own output: it is status 503
    with the fixed body "timed out".  The ceiling is the one constant
    of the wrapper, four seconds, for every handler and request. *)
Theorem TimeoutHandler_timed_out (h : Handler) (r : Request) (w : World) :
  (clock w + 4 * Second < clock (run (ServeHTTP h r) w).1)%N →
  TimeoutHandler h = http_TimeoutHandler h (4 * Second) "timed out" ∧
  ∃ w', run (ServeHTTP (TimeoutHandler h) r) w = (w', Returned) ∧
        resp w' = resp_write "timed out"
                    (resp_write_header http_StatusServiceUnavailable (resp w)) ∧
        body (resp w') = body (resp w) +:+ "timed out" ∧
        clock w' = (clock w + 4 * Second)%N.
Proof.
  intros Hlate. split; [reflexivity|].
  destruct (timeout_serve_deadline "timed out" (ServeHTTP h r) (4 * Second) tw_new w w)
    as (w' & Hrun & Hresp & Hclock); [done|done|].
  exists w'. split; [exact Hrun|]. split; [done|]. split; [|done].
  rewrite Hresp. apply body_timeout_reply.
Qed.

(** The timeout at a handler that writes, runs for five seconds and
    writes again. *)
Lemma TimeoutHandler_timed_out_witness :
  TimeoutHandler (Some slow_handler) =
    http_TimeoutHandler (Some slow_handler) (4 * Second) "timed out" ∧
  ∃ w', run (ServeHTTP (TimeoutHandler (Some slow_handler)) sample_request) fresh_world =
          (w', Returned) ∧
        resp w' = resp_write "timed out"
                    (resp_write_header http_StatusServiceUnavailable (resp fresh_world)) ∧
        body (resp w') = body (resp fresh_world) +:+ "timed out" ∧
        clock w' = (clock fresh_world + 4 * Second)%N.
Proof.
  apply (TimeoutHandler_timed_out (Some slow_handler) sample_request fresh_world).
  vm_compute. reflexivity.
Defined.

(** ** The pipeline *)

(** C1.  The handler the server installs is the timeout wrapper around
    the recovery wrapper around the metrics wrapper around the
    compression wrapper around the multiplexer's dispatch; it therefore
    serves every request as that nesting does. *)
Theorem handler_wrapper_order `{NetHTTP} `{GzipCodec} (cfg : Config) :
  handler cfg =
    startup_bind (routes cfg) (λ mux,
      Started (TimeoutHandler
                 (RecoverHandler
                    (RequestMetricsHandler
                       (GZipHandler (Some (mux_ServeHTTP mux))))))) ∧
  ∀ mux, routes cfg = Started mux →
    ∃ composed, handler cfg = Started composed ∧
      ∀ r, ServeHTTP composed r =
           ServeHTTP (TimeoutHandler
                        (RecoverHandler
                           (RequestMetricsHandler
                              (GZipHandler (Some (mux_ServeHTTP mux)))))) r.
Proof.
  split; [reflexivity|].
  intros mux Hmux. unfold handler. rewrite Hmux. cbn [startup_bind].
  eexists. split; reflexivity.
Qed.

(** ** The route table *)











(** The other registrations the multiplexer refuses, and the request
    paths it does not dispatch: an empty pattern and a nil controller
    stop the start-up, and a path that is not in canonical form is
    redirected instead of served. *)
Example empty_pattern_panics :
  @routes plain_http (sample_config (register_all [("", Some hello_handler)])) =
    StartupPanic "http: invalid pattern".
Proof. vm_compute. reflexivity. Qed.

Example nil_controller_panics :
  @routes plain_http (sample_config (register_all [("/orders", None)])) =
    StartupPanic "http: nil handler".
Proof. vm_compute. reflexivity. Qed.

Example unclean_path_redirected :
  match @routes plain_http (sample_config (register_all [("/a//b", Some hello_handler)])) with
  | Started mux =>
      @mux_ServeHTTP plain_http mux (mkRequest "GET" "/a//b" "/a//b" "10.0.0.1:5123" ∅) =
      HeaderSet "Location" "/a/b" (WriteHeader 301 Return)
  | StartupPanic _ => False
  end.
Proof. vm_compute. reflexivity. Qed.



(** * Further properties of the wrappers *)

(** X1.  No panic of a downstream handler passes the recovery wrapper:
    whatever the handler (nil included) and the request, the wrapper
    returns.  When the handler returns, the wrapper adds nothing; a nil
    handler leaves the process as it was. *)
Theorem RecoverHandler_contains_panics (next : Handler) (r : Request) (w : World) :
  (run (ServeHTTP (RecoverHandler next) r) w).2 = Returned ∧
  match next with
  | Some f =>
      ∀ w', run (f r) w = (w', Returned) →
            run (ServeHTTP (RecoverHandler next) r) w = (w', Returned)
  | None => run (ServeHTTP (RecoverHandler next) r) w = (w, Returned)
  end.
Proof.
  destruct next as [f|].
  - rewrite run_RecoverHandler.
    destruct (run (f r) w) as [w1 [|v]].
    + split; [reflexivity|]. by intros w' [= ->].
    + rewrite run_recovered. split; [reflexivity|]. by intros w' [=].
  - split; reflexivity.
Qed.


Lemma same_but_resp_set_resp (f g : Response → Response) (w1 w2 : World) :
  same_but_resp w1 w2 → same_but_resp (set_resp f w1) (set_resp g w2).
Proof. done. Qed.

Lemma same_but_resp_step (f : World → World) (w1 w2 : World) :
  ((∃ l, f = add_log l) ∨ (∃ b, f = add_stderr b) ∨
   f = take_stack ∨ ∃ d, f = advance d) →
  same_but_resp w1 w2 → same_but_resp (f w1) (f w2).
Proof.
  intros Hf (Hl & He & Hc & Ht & Hn).
  destruct Hf as [[l ->]|[[b ->]|[->|[d ->]]]];
    unfold same_but_resp, same_env; simpl; by rewrite ?Hl, ?He, ?Hc, ?Ht, ?Hn.
Qed.

Lemma run_write_all_frame (outs : list string) (next : Prog) (w : World) :
  ∃ w', run (write_all outs next) w = run next w' ∧ same_but_resp w w'.
Proof.
  revert w. induction outs as [|o outs IH]; intros w; cbn [write_all run].
  - by exists w.
  - destruct (IH (set_resp (resp_write o) w)) as (w' & Hrun & Hsame).
    exists w'. split; [done|]. exact Hsame.
Qed.

(** Outside the response the gzip writer changes nothing in a run. *)
Lemma gzip_serve_frame `{GzipCodec} (p : Prog) :
  ∀ (gz : gz_writer) (w1 w2 : World),
    same_but_resp w1 w2 →
    same_but_resp (run p w1).1 (run (gzip_serve gz p) w2).1 ∧
    (run (gzip_serve gz p) w2).2 = (run p w1).2.
Proof.
  prog_induction p; intros gz w1 w2 Hsame; cbn [run gzip_serve].
  - destruct (run_write_all_frame (gz_Close gz) Return w2) as (w' & -> & Hs).
    cbn [run fst snd]. split; [|done].
    destruct Hsame as (? & ? & ? & ? & ?), Hs as (? & ? & ? & ? & ?).
    unfold same_but_resp, same_env. repeat split; congruence.
  - destruct (run_write_all_frame (gz_Close gz) (Panic v) w2) as (w' & -> & Hs).
    cbn [run fst snd]. split; [|done].
    destruct Hsame as (? & ? & ? & ? & ?), Hs as (? & ? & ? & ? & ?).
    unfold same_but_resp, same_env. repeat split; congruence.
  - apply IH. by apply same_but_resp_set_resp.
  - apply IH. by apply same_but_resp_set_resp.
  - destruct (run_write_all_frame (gz_Write gz b).2
                (gzip_serve (gz_Write gz b).1 (n (String.length b, None))) w2)
      as (w' & -> & Hs).
    apply IH.
    destruct Hsame as (? & ? & ? & ? & ?), Hs as (? & ? & ? & ? & ?).
    unfold same_but_resp, same_env. cbn [set_resp logs stderr clock stack_text stack_calls].
    repeat split; congruence.
  - apply IH. apply same_but_resp_step; [|done]. left. by exists l.
  - apply IH. apply same_but_resp_step; [|done]. right; left. by exists b.
  - destruct Hsame as (Hl & He & Hc & Ht & Hn). rewrite <- Hc. by apply IH.
  - pose proof Hsame as (Hl & He & Hc & Ht & Hn). rewrite <- Ht, <- Hn.
    apply IH. apply same_but_resp_step; [|done]. right; right; by left.
  - apply IH. apply same_but_resp_step; [|done]. right; right; right. by exists d.
Qed.

(** X3.  The compression wrapper is invisible outside the response: for
    every request, accepting gzip or not, a run under the wrapper ends
    as the run of the downstream handler does (the same return or the
    same panic) with the same log, the same standard error and the same
    clock. *)
Theorem GZipHandler_transparent `{GzipCodec} (h : Handler) (r : Request) (w : World) :
  (run (ServeHTTP (GZipHandler h) r) w).2 = (run (ServeHTTP h r) w).2 ∧
  logs (run (ServeHTTP (GZipHandler h) r) w).1 = logs (run (ServeHTTP h r) w).1 ∧
  stderr (run (ServeHTTP (GZipHandler h) r) w).1 = stderr (run (ServeHTTP h r) w).1 ∧
  clock (run (ServeHTTP (GZipHandler h) r) w).1 = clock (run (ServeHTTP h r) w).1.
Proof.
  destruct (accepts_gzip r) eqn:Hacc.
  - assert (ServeHTTP (GZipHandler h) r =
            HeaderSet "Content-Encoding" "gzip"
              (gzip_serve gzip_NewWriter (ServeHTTP h r))) as ->.
    { simpl. by rewrite Hacc. }
    unfold HeaderSet. cbn [run].
    destruct (gzip_serve_frame (ServeHTTP h r) gzip_NewWriter w
                (set_resp (resp_header_do (HSet "Content-Encoding" "gzip")) w))
      as ((Hl & He & Hc & _) & Hout); [done|].
    by rewrite Hout, Hl, He, Hc.
  - assert (ServeHTTP (GZipHandler h) r = ServeHTTP h r) as ->; [|done].
    simpl. by rewrite Hacc.
Qed.

(** ** The timeout wrapper when the handler is done in time *)

Lemma run_clock_mono (p : Prog) : ∀ w, (clock w ≤ clock (run p w).1)%N.
Proof.
  prog_induction p; intros w; cbn [run fst]; try lia;
    try (etrans; [|apply IH]; cbn [set_resp add_log add_stderr take_stack clock]; lia).
  etrans; [|apply IH]. cbn [advance clock]. lia.
Qed.

Lemma tw_holds_header_do (op : HeaderOp) (tw : timeoutWriter) (rs : Response) :
  tw_holds tw rs → tw_holds (tw_header_do op tw) (resp_header_do op rs).
Proof.
  intros (Hh & Hb & Hs). unfold tw_holds, tw_header_do, resp_header_do.
  cbn [tw_h tw_wbuf tw_wroteHeader tw_code header body sent]. by rewrite Hh.
Qed.

Lemma tw_holds_WriteHeader (c : Z) (tw : timeoutWriter) (rs : Response) :
  tw_holds tw rs → tw_holds (tw_WriteHeader c tw) (resp_write_header c rs).
Proof.
  destruct rs as [h s b], tw as [th tb tf tc].
  unfold tw_holds, tw_WriteHeader, resp_write_header.
  cbn [tw_h tw_wbuf tw_wroteHeader tw_code header body sent].
  intros (Hh & Hb & Hs). destruct s as [[code hs]|].
  - destruct Hs as [-> ->]. by cbn [tw_h tw_wbuf tw_wroteHeader tw_code header body sent].
  - rewrite Hs. by cbn [tw_h tw_wbuf tw_wroteHeader tw_code header body sent].
Qed.

Lemma tw_holds_Write (b : string) (tw : timeoutWriter) (rs : Response) :
  tw_holds tw rs → tw_holds (tw_Write b tw) (resp_write b rs).
Proof.
  intros Hholds. apply (tw_holds_WriteHeader 200) in Hholds.
  destruct Hholds as (Hh & Hb & Hs). unfold tw_holds, tw_Write, resp_write.
  cbn [tw_h tw_wbuf tw_wroteHeader tw_code header body sent]. by rewrite Hb.
Qed.

(** Copying the buffered headers into the real header map. *)
Lemma run_copy_headers (base : Prog) (m : gmap string (list string)) :
  ∀ w, run (map_fold (λ k vv rest, HeaderDo (HAssign k vv) rest) base m) w =
       run base (set_resp (λ rs, mkResponse (m ∪ header rs) (sent rs) (body rs)) w).
Proof.
  apply (map_fold_weak_ind (λ (prog : Prog) (m : gmap string (list string)),
    ∀ w, run prog w =
         run base (set_resp (λ rs, mkResponse (m ∪ header rs) (sent rs) (body rs)) w))).
  - intros [[h s b] lg se ck st sc]. unfold set_resp.
    cbn [resp logs stderr clock stack_text stack_calls header sent body].
    by rewrite (left_id_L ∅ (∪)).
  - intros i x m' prog Hfresh IH w. cbn [run]. rewrite IH.
    destruct w as [[h s b] lg se ck st sc]. unfold set_resp, resp_header_do, apply_header_op.
    cbn [resp logs stderr clock stack_text stack_calls header sent body].
    by rewrite <- insert_union_r, insert_union_l.
Qed.

Lemma run_tw_flush (tw : timeoutWriter) (w : World) :
  run (tw_flush tw) w =
  (set_resp (λ rs,
     resp_write (tw_wbuf tw)
       (resp_write_header (if tw_wroteHeader tw then tw_code tw else 200)
          (mkResponse (tw_h tw ∪ header rs) (sent rs) (body rs)))) w,
   Returned).
Proof. unfold tw_flush. rewrite run_copy_headers. reflexivity. Qed.

(** A handler that is done before the deadline runs under the timeout
    wrapper as it runs on a fresh response; what it wrote is in the
    buffer when it returns, and is dropped when it panics. *)
Lemma timeout_serve_in_time (msg : string) (p : Prog) :
  ∀ (remaining : N) (tw : timeoutWriter) (w : World) (rs2 : Response),
    tw_holds tw (resp w) →
    (clock (run p w).1 ≤ clock w + remaining)%N →
    match run p w with
    | (w', Returned) =>
        ∃ tw', tw_holds tw' (resp w') ∧
               run (timeout_serve remaining msg tw p) (with_resp rs2 w) =
               run (tw_flush tw') (with_resp rs2 w')
    | (w', Panicked v) =>
        run (timeout_serve remaining msg tw p) (with_resp rs2 w) =
        (with_resp rs2 w', Panicked v)
    end.
Proof.
  prog_induction p; intros remaining tw w rs2 Hholds Htime;
    cbn [run fst] in Htime; cbn [run timeout_serve].
  - by exists tw.
  - reflexivity.
  - exact (IH remaining _ (set_resp (resp_header_do op) w) rs2
              (tw_holds_header_do op _ _ Hholds) Htime).
  - exact (IH remaining _ (set_resp (resp_write_header c) w) rs2
              (tw_holds_WriteHeader c _ _ Hholds) Htime).
  - exact (IH _ remaining _ (set_resp (resp_write b) w) rs2
              (tw_holds_Write b _ _ Hholds) Htime).
  - exact (IH remaining tw (add_log l w) rs2 Hholds Htime).
  - exact (IH remaining tw (add_stderr b w) rs2 Hholds Htime).
  - exact (IH (clock w) remaining tw w rs2 Hholds Htime).
  - exact (IH (stack_text w (stack_calls w)) remaining tw (take_stack w) rs2 Hholds Htime).
  - pose proof (run_clock_mono n (advance d w)) as Hmono. cbn [advance clock] in Hmono.
    destruct (N.leb_spec d remaining) as [Hle|Hgt]; [|lia].
    cbn [run].
    apply (IH (remaining - d)%N tw (advance d w) rs2 Hholds).
    cbn [advance clock]. lia.
Qed.

Lemma tw_holds_new : tw_holds tw_new fresh_response.
Proof. by repeat split. Qed.

Lemma tw_holds_status (tw : timeoutWriter) (rs : Response) :
  tw_holds tw rs →
  (if tw_wroteHeader tw then tw_code tw else 200%Z) = status_or_200 rs.
Proof.
  intros (_ & _ & Hs). unfold status_or_200.
  destruct (sent rs) as [[code hs]|]; [by destruct Hs as [-> ->]|by rewrite Hs].
Qed.

(** When the handler returns within the ceiling, the timeout wrapper
    ends by copying the buffer, which holds what the handler produced
    on a fresh response, to the real writer. *)
Lemma timeout_flushes (h : Handler) (r : Request) (w w' : World) :
  run (ServeHTTP h r) (with_resp fresh_response w) = (w', Returned) →
  (clock w' ≤ clock w + 4 * Second)%N →
  ∃ tw', tw_holds tw' (resp w') ∧
         run (ServeHTTP (TimeoutHandler h) r) w =
         run (tw_flush tw') (with_resp (resp w) w').
Proof.
  intros Hrun Htime.
  pose proof (timeout_serve_in_time "timed out" (ServeHTTP h r) (4 * Second) tw_new
                (with_resp fresh_response w) (resp w) tw_holds_new) as Hin.
  rewrite Hrun in Hin. destruct Hin as (tw' & Hholds & Hflush); [exact Htime|].
  exists tw'. split; [done|].
  destruct w as [rs lg se ck st sc]. cbn [resp] in *.
  change (with_resp rs (with_resp fresh_response (mkWorld rs lg se ck st sc)))
    with (mkWorld rs lg se ck st sc) in Hflush.
  exact Hflush.
Qed.

(** Copying a buffer to a response on which nothing has been sent. *)
Lemma flush_delivers (tw : timeoutWriter) (rs : Response) (w' : World) :
  tw_holds tw (resp w') →
  sent rs = None →
  ∃ w'', run (tw_flush tw) (with_resp rs w') = (w'', Returned) ∧
         body (resp w'') = body rs +:+ body (resp w') ∧
         sent (resp w'') = Some (status_or_200 (resp w'), header (resp w') ∪ header rs) ∧
         logs w'' = logs w' ∧ stderr w'' = stderr w' ∧ clock w'' = clock w'.
Proof.
  intros Hholds Hsent. rewrite run_tw_flush. eexists. split; [reflexivity|].
  rewrite (tw_holds_status _ _ Hholds). destruct Hholds as (Hh & Hb & _).
  cbn [with_resp set_resp resp logs stderr clock].
  rewrite body_resp_write, body_resp_write_header. cbn [body].
  rewrite Hb. split; [done|]. split; [|done].
  unfold resp_write, resp_write_header. cbn [sent header body]. rewrite Hsent.
  cbn [sent header body]. by rewrite Hh.
Qed.

(** X4.  When the handler returns within the ceiling, the timeout
    wrapper delivers what the handler produced on its own fresh writer:
    all of its body bytes, its status (200 when it set none) and its
    headers laid over those already on the response; the log, standard
    error and the clock are those of the handler's run. *)
Theorem TimeoutHandler_in_time (h : Handler) (r : Request) (w w' : World) :
  run (ServeHTTP h r) (with_resp fresh_response w) = (w', Returned) →
  (clock w' ≤ clock w + 4 * Second)%N →
  sent (resp w) = None →
  ∃ w'', run (ServeHTTP (TimeoutHandler h) r) w = (w'', Returned) ∧
         body (resp w'') = body (resp w) +:+ body (resp w') ∧
         sent (resp w'') =
           Some (status_or_200 (resp w'), header (resp w') ∪ header (resp w)) ∧
         logs w'' = logs w' ∧ stderr w'' = stderr w' ∧ clock w'' = clock w'.
Proof.
  intros Hrun Htime Hsent.
  destruct (timeout_flushes h r w w' Hrun Htime) as (tw' & Hholds & Hto).
  destruct (flush_delivers tw' (resp w) w' Hholds Hsent) as (w'' & Hflush & Hrest).
  exists w''. split; [|exact Hrest].
  by rewrite Hto, Hflush.
Qed.

(** At a handler that sets a header and a status, writes, and runs for
    three seconds. *)
Lemma TimeoutHandler_in_time_witness :
  ∃ w'', run (ServeHTTP (TimeoutHandler (Some quick_handler)) sample_request) fresh_world =
           (w'', Returned) ∧
         body (resp w'') = body (resp fresh_world) +:+ body (resp quick_done) ∧
         sent (resp w'') =
           Some (status_or_200 (resp quick_done),
                 header (resp quick_done) ∪ header (resp fresh_world)) ∧
         logs w'' = logs quick_done ∧ stderr w'' = stderr quick_done ∧
         clock w'' = clock quick_done.
Proof.
  apply (TimeoutHandler_in_time (Some quick_handler) sample_request fresh_world quick_done).
  - vm_compute. reflexivity.
  - vm_compute. discriminate.
  - reflexivity.
Defined.

(** X5.  When the handler panics within the ceiling, the timeout
    wrapper raises the same panic in its caller and nothing the handler
    had written reaches the response. *)
Theorem TimeoutHandler_panic_in_time (h : Handler) (r : Request) (w w' : World)
    (v : PanicValue) :
  run (ServeHTTP h r) (with_resp fresh_response w) = (w', Panicked v) →
  (clock w' ≤ clock w + 4 * Second)%N →
  ∃ w'', run (ServeHTTP (TimeoutHandler h) r) w = (w'', Panicked v) ∧
         resp w'' = resp w ∧
         logs w'' = logs w' ∧ stderr w'' = stderr w' ∧ clock w'' = clock w'.
Proof.
  intros Hrun Htime.
  pose proof (timeout_serve_in_time "timed out" (ServeHTTP h r) (4 * Second) tw_new
                (with_resp fresh_response w) (resp w) tw_holds_new) as Hin.
  rewrite Hrun in Hin. specialize (Hin Htime).
  destruct w as [rs lg se ck st sc]. cbn [resp] in *.
  change (with_resp rs (with_resp fresh_response (mkWorld rs lg se ck st sc)))
    with (mkWorld rs lg se ck st sc) in Hin.
  change (ServeHTTP (TimeoutHandler h) r)
    with (timeout_serve (4 * Second) "timed out" tw_new (ServeHTTP h r)).
  rewrite Hin. eexists. split; [reflexivity|]. done.
Qed.

(** At a handler that writes and then panics. *)
Lemma TimeoutHandler_panic_in_time_witness :
  ∃ w'', run (ServeHTTP (TimeoutHandler (Some leaky_handler)) sample_request) fresh_world =
           (w'', Panicked (PanicString "boom")) ∧
         resp w'' = resp fresh_world ∧
         logs w'' = logs leaky_done ∧ stderr w'' = stderr leaky_done ∧
         clock w'' = clock leaky_done.
Proof.
  apply (TimeoutHandler_panic_in_time (Some leaky_handler) sample_request fresh_world
           leaky_done (PanicString "boom")).
  - vm_compute. reflexivity.
  - vm_compute. discriminate.
Defined.

(** ** Dispatch beyond exact matches *)








Lemma canonical_nonempty (p : string) : cleanPath p = p → p ≠ "".
Proof. intros Hclean ->. discriminate Hclean. Qed.









(** ** The pipeline from end to end *)





Lemma error_reply_unsent (rs : Response) :
  sent rs = None →
  body (error_reply rs) = body rs +:+ "Internal Server Error" +:+ newline ∧
  status_or_200 (error_reply rs) = 500%Z ∧
  header (error_reply rs) !! "Content-Type" = Some ["text/plain; charset=utf-8"].
Proof.
  intros Hsent. unfold error_reply. rewrite body_resp_write, body_resp_write_header.
  split; [reflexivity|].
  unfold status_or_200, resp_write, resp_write_header, resp_header_do.
  cbn [sent header body]. rewrite Hsent. cbn [sent header body]. split; [reflexivity|].
  unfold apply_header_op. rewrite lookup_insert_ne by done. apply lookup_insert_eq.
Qed.







(** * The asset map and the template helpers *)

Lemma loadManifest_data (m : gmap string string) (assetMap : stringMap) :
  data (map_fold (λ k v acc, stringMap_Store acc k v) assetMap m) = m ∪ data assetMap.
Proof.
  apply (map_fold_weak_ind (λ (acc : stringMap) (m : gmap string string),
                              data acc = m ∪ data assetMap)).
  - by rewrite (left_id_L ∅ (∪)).
  - intros k v m' acc Hfresh IH. unfold stringMap_Store. cbn [data].
    by rewrite IH, insert_union_l.
Qed.

(** X11.  Loading a manifest that decodes without error makes every key
    of the manifest load its manifest value, and leaves every other key
    as it was; a manifest that fails to decode changes nothing and the
    error is returned. *)
Theorem loadManifest_loads (m : gmap string string) (err : option error)
    (assetMap : stringMap) :
  match err with
  | None =>
      (loadManifest (m, err) assetMap).2 = None ∧
      ∀ key, stringMap_Load (loadManifest (m, err) assetMap).1 key =
             match m !! key with
             | Some v => (v, true)
             | None => stringMap_Load assetMap key
             end
  | Some e => loadManifest (m, err) assetMap = (assetMap, Some e)
  end.
Proof.
  destruct err as [e|]; [reflexivity|]. split; [reflexivity|].
  intros key. unfold loadManifest, stringMap_Load. cbn [fst].
  rewrite loadManifest_data, lookup_union.
  destruct (m !! key) as [v|], (data assetMap !! key) as [v'|]; reflexivity.
Qed.

Lemma split_slash_nonempty (s : string) : ∃ seg rest, split_slash s = seg :: rest.
Proof.
  induction s as [|c s (seg & rest & IH)]; [by eexists _, _|].
  cbn [split_slash]. case_bool_decide; [by eexists _, _|].
  rewrite IH. by eexists _, _.
Qed.

Lemma split_slash_app (a b : string) :
  split_slash (a +:+ "/" +:+ b) = (split_slash a ++ split_slash b)%list.
Proof.
  induction a as [|c a IH].
  - reflexivity.
  - rewrite append_cons. cbn [split_slash]. rewrite IH.
    case_bool_decide; [reflexivity|].
    by destruct (split_slash_nonempty a) as (seg & rest & ->).
Qed.

Lemma clean_elements_app (a b kept : list string) :
  clean_elements (a ++ b) kept = clean_elements b (rev (clean_elements a kept)).
Proof.
  revert kept. induction a as [|e a IH]; intros kept.
  - cbn [app clean_elements]. by rewrite rev_involutive.
  - cbn [app clean_elements].
    destruct (bool_decide (e = "") || bool_decide (e = ".")); [apply IH|].
    destruct (bool_decide (e = "..")); apply IH.
Qed.

Lemma clean_relative_app (a b kept : list string) :
  clean_relative (a ++ b) kept = clean_relative b (rev (clean_relative a kept)).
Proof.
  revert kept. induction a as [|e a IH]; intros kept.
  - cbn [app clean_relative]. by rewrite rev_involutive.
  - cbn [app clean_relative].
    destruct (bool_decide (e = "") || bool_decide (e = ".")); [apply IH|].
    destruct (bool_decide (e = "..")); [|apply IH].
    destruct kept as [|k ks]; [apply IH|].
    destruct (bool_decide (k = "..")); apply IH.
Qed.

(** Without a [..] element nothing that was kept is removed again. *)
Lemma clean_elements_grows (elems kept : list string) :
  ".." ∉ elems → ∃ extra, clean_elements elems kept = (rev kept ++ extra)%list.
Proof.
  revert kept. induction elems as [|e elems IH]; intros kept Hno.
  - exists []. cbn [clean_elements]. by rewrite app_nil_r.
  - apply not_elem_of_cons in Hno as [Hne Hno]. cbn [clean_elements].
    destruct (bool_decide (e = "") || bool_decide (e = ".")); [by apply IH|].
    rewrite bool_decide_eq_false_2 by done.
    destruct (IH (e :: kept) Hno) as (extra & ->).
    exists (e :: extra). cbn [rev]. by rewrite <- app_assoc.
Qed.

Lemma clean_relative_grows (elems kept : list string) :
  ".." ∉ elems → ∃ extra, clean_relative elems kept = (rev kept ++ extra)%list.
Proof.
  revert kept. induction elems as [|e elems IH]; intros kept Hno.
  - exists []. cbn [clean_relative]. by rewrite app_nil_r.
  - apply not_elem_of_cons in Hno as [Hne Hno]. cbn [clean_relative].
    destruct (bool_decide (e = "") || bool_decide (e = ".")); [by apply IH|].
    rewrite bool_decide_eq_false_2 by done.
    destruct (IH (e :: kept) Hno) as (extra & ->).
    exists (e :: extra). cbn [rev]. by rewrite <- app_assoc.
Qed.

Lemma prefix_append (p s : string) : String.prefix p (p +:+ s) = true.
Proof.
  induction p as [|c p IH]; [by destruct s|].
  rewrite append_cons. cbn [String.prefix]. by destruct (ascii_dec c c).
Qed.

Lemma asset_path_under (filePath : string) :
  no_dotdot filePath →
  under "/public/assets" (filepath_Join ["/public/assets"; filePath]).
Proof.
  intros Hno.
  change (filepath_Join ["/public/assets"; filePath])
    with (path_Clean ("/public/assets" +:+ "/" +:+ filePath)).
  unfold path_Clean. rewrite split_slash_app, clean_elements_app.
  change (rev (clean_elements (split_slash "/public/assets") []))
    with ["assets"; "public"].
  destruct (clean_elements_grows (split_slash filePath) ["assets"; "public"] Hno)
    as (extra & ->).
  destruct extra as [|x xs]; [by left|]. right.
  exact (prefix_append "/public/assets/" (join_slash (x :: xs))).
Qed.

(** X12.  An asset name without [..] elements, looked up in a manifest
    whose entry for it has none either, resolves to [/public/assets]
    or to a path below it. *)
Theorem assetPathFor_under (assetMap : stringMap) (file : string) :
  no_dotdot file →
  (∀ v, data assetMap !! file = Some v → no_dotdot v) →
  under "/public/assets" (assetPathFor assetMap file).
Proof.
  intros Hfile Hentry. unfold assetPathFor, stringMap_Load, filepath_ToSlash.
  destruct (data assetMap !! file) as [v|] eqn:Hv.
  - cbn [negb orb]. rewrite orb_false_r.
    case_bool_decide; apply asset_path_under; [done|by apply Hentry].
  - rewrite orb_true_r. by apply asset_path_under.
Qed.

(** At a manifest that maps the name to a fingerprinted file. *)
Lemma assetPathFor_under_witness :
  under "/public/assets"
    (assetPathFor (mkStringMap {[ "app.js" := "js/app-3f9a.js" ]}) "app.js").
Proof.
  apply (assetPathFor_under (mkStringMap {[ "app.js" := "js/app-3f9a.js" ]}) "app.js").
  - vm_compute. intros H. by repeat (apply elem_of_cons in H as [H|H]; [discriminate H|]);
      apply elem_of_nil in H.
  - intros v Hv. cbn [data] in Hv. apply lookup_singleton_Some in Hv as [_ <-].
    vm_compute. intros H. by repeat (apply elem_of_cons in H as [H|H]; [discriminate H|]);
      apply elem_of_nil in H.
Defined.

(** The [..] elements of a name are resolved against the asset
    directory, so a name with enough of them leaves it. *)
Example assetPathFor_leaves_directory :
  assetPathFor (mkStringMap ∅) "../../etc/passwd" = "/etc/passwd".
Proof. vm_compute. reflexivity. Qed.

(** X13.  After a manifest has been loaded, the asset path of a name in
    the manifest is built from its manifest entry, whatever the map
    held before; an empty entry falls back to the name itself. *)
Theorem assetPathFor_after_manifest (m : gmap string string) (assetMap : stringMap)
    (file v : string) :
  m !! file = Some v →
  assetPathFor (loadManifest (m, None) assetMap).1 file =
  filepath_Join ["/public/assets"; if bool_decide (v = "") then file else v].
Proof.
  intros Hentry. unfold assetPathFor, stringMap_Load, loadManifest, filepath_ToSlash.
  cbn [fst]. rewrite loadManifest_data, lookup_union, Hentry.
  destruct (data assetMap !! file); cbn [union option_union union_with option_union_with];
    by rewrite orb_false_r.
Qed.

(** At a manifest with one fingerprinted file. *)
Lemma assetPathFor_after_manifest_witness :
  assetPathFor (loadManifest ({[ "app.js" := "app-3f9a.js" ]}, None)
                  (mkStringMap {[ "app.js" := "stale.js" ]})).1 "app.js" =
  filepath_Join ["/public/assets";
                 if bool_decide ("app-3f9a.js" = "") then "app.js" else "app-3f9a.js"].
Proof.
  apply (assetPathFor_after_manifest {[ "app.js" := "app-3f9a.js" ]}
           (mkStringMap {[ "app.js" := "stale.js" ]}) "app.js" "app-3f9a.js").
  apply lookup_singleton_eq.
Defined.

Lemma css_path_under (filePath : string) :
  no_dotdot filePath →
  under "views/assets/css" (filepath_Join ["views/assets/css"; filePath]).
Proof.
  intros Hno.
  change (filepath_Join ["views/assets/css"; filePath])
    with (let out := join_slash
                       (clean_relative
                          (split_slash ("views/assets/css" +:+ "/" +:+ filePath)) []) in
          if bool_decide (out = "") then "." else out).
  rewrite split_slash_app, clean_relative_app.
  change (rev (clean_relative (split_slash "views/assets/css") []))
    with ["css"; "assets"; "views"].
  destruct (clean_relative_grows (split_slash filePath) ["css"; "assets"; "views"] Hno)
    as (extra & ->).
  cbv zeta. case_bool_decide as Hout.
  { exfalso. destruct extra; vm_compute in Hout; discriminate Hout. }
  destruct extra as [|x xs]; [by left|]. right.
  exact (prefix_append "views/assets/css/" (join_slash (x :: xs))).
Qed.

Lemma js_path_under (filePath : string) :
  no_dotdot filePath →
  under "view/assets/js" (filepath_Join ["view/assets/js"; filePath]).
Proof.
  intros Hno.
  change (filepath_Join ["view/assets/js"; filePath])
    with (let out := join_slash
                       (clean_relative
                          (split_slash ("view/assets/js" +:+ "/" +:+ filePath)) []) in
          if bool_decide (out = "") then "." else out).
  rewrite split_slash_app, clean_relative_app.
  change (rev (clean_relative (split_slash "view/assets/js") []))
    with ["js"; "assets"; "view"].
  destruct (clean_relative_grows (split_slash filePath) ["js"; "assets"; "view"] Hno)
    as (extra & ->).
  cbv zeta. case_bool_decide as Hout.
  { exfalso. destruct extra; vm_compute in Hout; discriminate Hout. }
  destruct extra as [|x xs]; [by left|]. right.
  exact (prefix_append "view/assets/js/" (join_slash (x :: xs))).
Qed.

(** X14.  For an asset name without [..] elements (and a manifest entry
    without any), the style-sheet tag refers to a path at or below
    [/views/assets/css] and the script tag to a path at or below
    [/view/assets/js]; the directory of the first is [views], that of
    the second [view]. *)
Theorem css_js_under (assetMap : stringMap) (file : string) :
  no_dotdot file →
  (∀ v, data assetMap !! file = Some v → no_dotdot v) →
  (∃ path, css assetMap file =
             "<link rel=" +:+ dquote +:+ "stylesheet" +:+ dquote +:+ " href=" +:+
             dquote +:+ "/" +:+ path +:+ dquote +:+ ">" ∧
           under "views/assets/css" path) ∧
  (∃ path, js assetMap file =
             "<script type=" +:+ dquote +:+ "text/javascript" +:+ dquote +:+ " src=" +:+
             dquote +:+ "/" +:+ path +:+ dquote +:+ "></script>" ∧
           under "view/assets/js" path).
Proof.
  intros Hfile Hentry. unfold css, js, stringMap_Load, filepath_ToSlash.
  destruct (data assetMap !! file) as [v|] eqn:Hv.
  - cbn [negb]. rewrite orb_false_r.
    case_bool_decide; (split; eexists; (split; [reflexivity|]));
      (apply css_path_under || apply js_path_under); (done || by apply Hentry).
  - rewrite orb_true_r.
    split; eexists; (split; [reflexivity|]); [by apply css_path_under|by apply js_path_under].
Qed.

(** At a name in a subdirectory, with no manifest. *)
Lemma css_js_under_witness :
  (∃ path, css (mkStringMap ∅) "admin/site.css" =
             "<link rel=" +:+ dquote +:+ "stylesheet" +:+ dquote +:+ " href=" +:+
             dquote +:+ "/" +:+ path +:+ dquote +:+ ">" ∧
           under "views/assets/css" path) ∧
  (∃ path, js (mkStringMap ∅) "admin/site.css" =
             "<script type=" +:+ dquote +:+ "text/javascript" +:+ dquote +:+ " src=" +:+
             dquote +:+ "/" +:+ path +:+ dquote +:+ "></script>" ∧
           under "view/assets/js" path).
Proof.
  apply (css_js_under (mkStringMap ∅) "admin/site.css").
  - vm_compute. intros H. by repeat (apply elem_of_cons in H as [H|H]; [discriminate H|]);
      apply elem_of_nil in H.
  - intros v Hv. cbn [data] in Hv. by rewrite lookup_empty in Hv.
Defined.

(** ** The working directory *)

Lemma split_on_nonempty (sep : ascii) (s : string) :
  ∃ seg rest, split_on sep s = seg :: rest.
Proof.
  induction s as [|c s (seg & rest & IH)]; [by eexists _, _|].
  cbn [split_on]. case_bool_decide; [by eexists _, _|].
  rewrite IH. by eexists _, _.
Qed.

(** Joining the parts of a split gives the string back. *)
Lemma join_on_split_on (sep : ascii) (s : string) : join_on sep (split_on sep s) = s.
Proof.
  induction s as [|c s IH]; [reflexivity|].
  cbn [split_on]. destruct (split_on_nonempty sep s) as (seg & rest & Hs).
  rewrite Hs in *. case_bool_decide as Hc.
  - subst c.
    change (join_on sep ("" :: seg :: rest)) with (String sep (join_on sep (seg :: rest))).
    by rewrite IH.
  - rewrite <- IH. by destruct rest.
Qed.

Lemma split_on_app (sep : ascii) (a b : string) :
  split_on sep (a +:+ String sep b) = (split_on sep a ++ split_on sep b)%list.
Proof.
  induction a as [|c a IH].
  - change ("" +:+ String sep b) with (String sep b). cbn [split_on].
    by rewrite bool_decide_eq_true_2.
  - rewrite append_cons. cbn [split_on]. rewrite IH.
    case_bool_decide; [reflexivity|].
    by destruct (split_on_nonempty sep a) as (seg & rest & ->).
Qed.

Lemma join_on_snoc (sep : ascii) (parts : list string) (b : string) :
  join_on sep (parts ++ [b]) =
  match parts with
  | [] => b
  | _ => join_on sep parts +:+ String sep b
  end.
Proof.
  induction parts as [|p parts IH]; [reflexivity|].
  destruct parts as [|q parts]; [reflexivity|].
  change (join_on sep ((p :: q :: parts) ++ [b]))
    with (p +:+ String sep (join_on sep ((q :: parts) ++ [b]))).
  rewrite IH.
  change (join_on sep (p :: q :: parts)) with (p +:+ String sep (join_on sep (q :: parts))).
  by rewrite append_assoc, append_cons.
Qed.

(** The last part of a split is the whole string or what follows its
    last separator. *)
Lemma last_part_split_on (sep : ascii) (s : string) :
  s = last_part (split_on sep s) ∨
  ∃ pre, s = pre +:+ String sep (last_part (split_on sep s)).
Proof.
  pose proof (join_on_split_on sep s) as Hjoin.
  destruct (split_on_nonempty sep s) as (seg & rest & Hs).
  destruct (exists_last (l := split_on sep s)) as (init & b & Hsplit);
    [by rewrite Hs|].
  rewrite Hsplit in Hjoin |- *. unfold last_part. rewrite last_snoc. cbn [default].
  rewrite join_on_snoc in Hjoin. destruct init as [|p init]; [by left|].
  right. by eexists.
Qed.

Lemma last_part_after_separator (sep : ascii) (pre b : string) :
  split_on sep b = [b] →
  last_part (split_on sep (pre +:+ String sep b)) = b.
Proof.
  intros Hb. rewrite split_on_app, Hb. unfold last_part. by rewrite last_snoc.
Qed.

(** X15.  When the working directory can be read, [DirectoryPath]
    returns [./web/views] exactly when the directory is [phil-pay] or
    ends in a separator followed by [phil-pay] (the backslash on
    Windows, the slash elsewhere), and [./views] in every other case;
    when it cannot be read, the call panics with the error. *)
Theorem DirectoryPath_selects `{Platform} :
  match os_Getwd with
  | (dir, None) =>
      ∃ out v, DirectoryPath = Done out v ∧
        (v = "./web/views" ∨ v = "./views") ∧
        (v = "./web/views" ↔
         dir = "phil-pay" ∨
         ∃ pre, dir = pre +:+ String (separator_of runtime_GOOS) "phil-pay")
  | (dir, Some e) => DirectoryPath = Panics [] (PanicError e)
  end.
Proof.
  unfold DirectoryPath, workingDirectory.
  destruct os_Getwd as [dir [e|]]; [reflexivity|].
  cbn [called_bind].
  assert ((if bool_decide (runtime_GOOS = "windows")
           then last_part (split_on backslash dir)
           else last_part (split_on "/"%char dir)) =
          last_part (split_on (separator_of runtime_GOOS) dir)) as ->.
  { unfold separator_of. by destruct (bool_decide (runtime_GOOS = "windows")). }
  assert (split_on (separator_of runtime_GOOS) "phil-pay" = ["phil-pay"]) as Hname.
  { unfold separator_of. by destruct (bool_decide (runtime_GOOS = "windows")). }
  eexists _, _. split; [reflexivity|]. split.
  - case_bool_decide; [by left|by right].
  - case_bool_decide as Hbase.
    + split; [intros _|done].
      destruct (last_part_split_on (separator_of runtime_GOOS) dir) as [Hd|[pre Hd]];
        rewrite Hbase in Hd; [by left|right; by exists pre].
    + split; [done|]. intros [->|[pre ->]]; exfalso; apply Hbase.
      * unfold last_part. by rewrite Hname.
      * by apply last_part_after_separator.
Qed.

(** ** Rendering *)

Lemma run_write_all_written (outs : list string) (next : Prog)
    (rs : Response) (lg se : list string) (ck : N) (st : nat → string) (sc : nat) :
  run (write_all outs next) (mkWorld rs lg se ck st sc) =
  run next (mkWorld (written outs rs) lg se ck st sc).
Proof.
  revert rs. induction outs as [|o outs IH]; intros rs; [reflexivity|].
  cbn [write_all run]. unfold set_resp. cbn [resp logs stderr clock stack_text stack_calls].
  by rewrite IH.
Qed.

Lemma written_body (outs : list string) (rs : Response) :
  body (written outs rs) = body rs +:+ join outs.
Proof.
  revert rs. induction outs as [|o outs IH]; intros rs.
  - by rewrite join_nil, append_nil_r.
  - cbn [written fold_left]. fold (written outs (resp_write o rs)).
    by rewrite IH, body_resp_write, join_cons, append_assoc.
Qed.

Lemma written_header (outs : list string) (rs : Response) :
  header (written outs rs) = header rs.
Proof.
  revert rs. induction outs as [|o outs IH]; intros rs; [reflexivity|].
  cbn [written fold_left]. fold (written outs (resp_write o rs)). rewrite IH.
  by destruct rs as [h [s|] b].
Qed.

(** The first write sends status 200 with the headers of that moment;
    later writes leave the status line alone. *)
Lemma written_sent (outs : list string) (rs : Response) :
  sent (written outs rs) =
  match outs, sent rs with
  | [], _ => sent rs
  | _ :: _, Some s => Some s
  | _ :: _, None => Some (200%Z, header rs)
  end.
Proof.
  revert rs. induction outs as [|o outs IH]; intros rs; [reflexivity|].
  cbn [written fold_left]. fold (written outs (resp_write o rs)). rewrite IH.
  destruct rs as [h [s|] b]; unfold resp_write, resp_write_header;
    cbn [sent header body]; by destruct outs.
Qed.

(** X16.  When the execution of the templates stops with an error,
    [Render] hands one record to the error logger and returns; what the
    templates had already written stays in the response.  The status is
    500 only when nothing had been written: after the first chunk the
    status 200 has been sent, with the content type [text/html], and
    the later [WriteHeader] has no effect. *)
Theorem Render_execute_error `{Platform} `{HTMLTemplate} (r : Request)
    (templateFiles : list string) (data : option (gmap string GoValue))
    (out chunks : list string) (e : error) (w : World) :
  renderTemplates (default ∅ data) (["index.html"; "navbar.html"] ++ templateFiles)%list =
    Done out (chunks, Some e) →
  sent (resp w) = None →
  ∃ w', run (render_prog (Render r templateFiles data)) w = (w', Returned) ∧
        render_errors (Render r templateFiles data) =
          ["error executing template: " +:+ Error e] ∧
        body (resp w') = body (resp w) +:+ join chunks ∧
        sent (resp w') =
          Some (match chunks with
                | [] => 500%Z
                | _ :: _ => 200%Z
                end, <["Content-Type" := ["text/html"]]> (header (resp w))).
Proof.
  intros Hrender Hsent. unfold Render. rewrite Hrender.
  cbn [logErrorAndRespond render_prog render_errors].
  unfold HeaderSet. cbn [run].
  destruct w as [[h s b] lg se ck st sc]. cbn [resp sent] in Hsent. subst s.
  unfold set_resp, resp_header_do, apply_header_op.
  cbn [resp logs stderr clock stack_text stack_calls header sent body].
  rewrite run_write_all_written. cbn [run]. unfold set_resp.
  cbn [resp logs stderr clock stack_text stack_calls].
  eexists. split; [reflexivity|]. split; [reflexivity|]. cbn [resp]. split.
  - by rewrite body_resp_write_header, written_body.
  - unfold resp_write_header. destruct chunks as [|c chunks]; [reflexivity|].
    rewrite written_sent. cbn [sent header]. by rewrite written_sent.
Qed.

(** At templates that fail after one chunk of output. *)
Lemma Render_execute_error_witness :
  ∃ w', run (render_prog (@Render (unix_in "/srv/app")
                            (failing_templates ["<html>"] (mkError "no such field"))
                            sample_request ["home.html"] None)) fresh_world =
          (w', Returned) ∧
        render_errors (@Render (unix_in "/srv/app")
                         (failing_templates ["<html>"] (mkError "no such field"))
                         sample_request ["home.html"] None) =
          ["error executing template: " +:+ Error (mkError "no such field")] ∧
        body (resp w') = body (resp fresh_world) +:+ join ["<html>"] ∧
        sent (resp w') =
          Some (match ["<html>"] with
                | [] => 500%Z
                | _ :: _ => 200%Z
                end, <["Content-Type" := ["text/html"]]> (header (resp fresh_world))).
Proof.
  apply (@Render_execute_error (unix_in "/srv/app")
           (failing_templates ["<html>"] (mkError "no such field"))
           sample_request ["home.html"] None
           ["Current working directory: " +:+ dquote +:+ "/srv/app" +:+ dquote +:+ newline;
            "Base directory name:      " +:+ dquote +:+ "app" +:+ dquote +:+ newline]
           ["<html>"] (mkError "no such field") fresh_world).
  - vm_compute. reflexivity.
  - reflexivity.
Defined.

Lemma error_reply_sent (rs : Response) :
  sent rs = None → sent (error_reply rs) = Some (500%Z, header (error_reply rs)).
Proof.
  intros Hsent. unfold error_reply, resp_write, resp_write_header, resp_header_do.
  cbn [sent header body]. rewrite Hsent. reflexivity.
Qed.

(** X17.  When [Render] panics (the working directory cannot be read,
    or [template.Must] meets a parse error) in a controller under the
    recovery wrapper and nothing has been sent, the client receives
    status 500 with the plain-text error body: the content type
    [text/html] that [Render] had set is replaced, and the panic is
    reported. *)
Theorem Render_panic_recovered `{Platform} `{HTMLTemplate} (r : Request)
    (templateFiles : list string) (data : option (gmap string GoValue))
    (out : list string) (v : PanicValue) (w : World) :
  renderTemplates (default ∅ data) (["index.html"; "navbar.html"] ++ templateFiles)%list =
    Panics out v →
  sent (resp w) = None →
  ∃ w' hs,
    run (ServeHTTP (RecoverHandler
                      (Some (λ r, render_prog (Render r templateFiles data)))) r) w =
      (w', Returned) ∧
    sent (resp w') = Some (500%Z, hs) ∧
    hs !! "Content-Type" = Some ["text/plain; charset=utf-8"] ∧
    body (resp w') = body (resp w) +:+ "Internal Server Error" +:+ newline ∧
    logs w' =
      (logs w ++ [report_line r ("PANIC: " +:+ normalized_message v);
                  report_line r ("STACKTRACE: " +:+ stack_text w (S (stack_calls w)))])%list.
Proof.
  intros Hrender Hsent. rewrite run_RecoverHandler.
  unfold Render. rewrite Hrender. cbn [render_prog]. unfold HeaderSet. cbn [run].
  rewrite run_recovered. eexists _, _. split; [reflexivity|].
  cbn [resp logs set_resp stack_text stack_calls].
  assert (sent (resp_header_do (HSet "Content-Type" "text/html") (resp w)) = None)
    as Hsent' by done.
  destruct (error_reply_unsent _ Hsent') as (Hb & _ & Hct).
  rewrite (error_reply_sent _ Hsent'), Hb. split; [reflexivity|]. split; [exact Hct|].
  split; [|reflexivity]. by rewrite body_resp_write_header || reflexivity.
Qed.

(** At templates that do not parse. *)
Lemma Render_panic_recovered_witness :
  ∃ w' hs,
    run (ServeHTTP (RecoverHandler
                      (Some (λ r, render_prog
                                    (@Render (unix_in "/srv/app")
                                       (unparsable_templates (mkError "unexpected EOF"))
                                       r ["home.html"] None)))) sample_request)
        fresh_world = (w', Returned) ∧
    sent (resp w') = Some (500%Z, hs) ∧
    hs !! "Content-Type" = Some ["text/plain; charset=utf-8"] ∧
    body (resp w') = body (resp fresh_world) +:+ "Internal Server Error" +:+ newline ∧
    logs w' =
      (logs fresh_world ++
         [report_line sample_request
            ("PANIC: " +:+ normalized_message (PanicError (mkError "unexpected EOF")));
          report_line sample_request
            ("STACKTRACE: " +:+ stack_text fresh_world (S (stack_calls fresh_world)))])%list.
Proof.
  apply (@Render_panic_recovered (unix_in "/srv/app")
           (unparsable_templates (mkError "unexpected EOF"))
           sample_request ["home.html"] None
           ["Current working directory: " +:+ dquote +:+ "/srv/app" +:+ dquote +:+ newline;
            "Base directory name:      " +:+ dquote +:+ "app" +:+ dquote +:+ newline]
           (PanicError (mkError "unexpected EOF")) fresh_world).
  - vm_compute. reflexivity.
  - reflexivity.
Defined.
